(** * SSD_Tensorflow2, models.py: indexable layer composites

    A shallow embedding of [Network_Indexer] (key resolution, keyed item
    access, partial forward execution), of the two composites that delegate
    to it ([Powered_Sequential], [Powered_Model]) and of the network classes
    built on them ([BaseNet], [DetectorNet]).

    Python integers are [Z]; Python lists are [list]; a raised exception is
    the [Raise] branch of [result]; layer invocations are recorded in an
    explicit log threaded through every call. *)

From Stdlib Require Import ZArith List String Bool Lia Sorted.
Import ListNotations.
Open Scope Z_scope.

(** ** Exceptions and results *)

(** The exception classes [models.py] raises (its own [raise] statements and
    the ones of the list operations it uses). *)
Inductive exn : Type :=
| IndexError
| ValueError
| TypeError.

Inductive result (A : Type) : Type :=
| Ok (a : A)
| Raise (e : exn).
Arguments Ok {A} a.
Arguments Raise {A} e.

Definition bind_result {A B : Type} (r : result A) (k : A -> result B) : result B :=
  match r with
  | Ok a => k a
  | Raise e => Raise e
  end.

Notation "'let?' x ':=' r 'in' k" := (bind_result r (fun x => k))
  (at level 10, x name, r at level 100, k at level 200).

Definition raises {A : Type} (r : result A) : Prop :=
  exists e, r = Raise e.

(** ** Computations with a log

    [M S A] is a computation that may append to a log of type [S] and either
    returns an [A] or raises.  What was logged before a raise stays logged. *)
Definition M (S A : Type) : Type := S -> result A * S.

Definition ret {S A : Type} (a : A) : M S A := fun s => (Ok a, s).

Definition throw {S A : Type} (e : exn) : M S A := fun s => (Raise e, s).

Definition bind {S A B : Type} (m : M S A) (k : A -> M S B) : M S B :=
  fun s => match m s with
           | (Ok a, s') => k a s'
           | (Raise e, s') => (Raise e, s')
           end.

Definition lift {S A : Type} (r : result A) : M S A := fun s => (r, s).

Definition emit {S : Type} (x : S) : M (list S) unit := fun s => (Ok tt, s ++ [x]).

Notation "x <- m ;; k" := (bind m (fun x => k))
  (at level 61, m at next level, right associativity).

(** ** Python lists *)

(** [range(n)]: the integers [0 .. n-1], empty when [n <= 0]. *)
Definition range (n : Z) : list Z := map Z.of_nat (seq 0 (Z.to_nat n)).

Definition len {A : Type} (xs : list A) : Z := Z.of_nat (List.length xs).

(** [xs[i]] for an integer [i]: a negative index counts from the end, an index
    outside the list raises IndexError. *)
Definition py_index {A : Type} (xs : list A) (i : Z) : result A :=
  let j := if i <? 0 then i + len xs else i in
  if (j <? 0) || (len xs <=? j) then Raise IndexError
  else match nth_error xs (Z.to_nat j) with
       | Some a => Ok a
       | None => Raise IndexError
       end.

(** A bound of a slice object, as [get_item] and list slicing tell bounds
    apart: [None]; an integer, be it an int or another value slicing reads as
    one through [__index__]; a str; or a value slicing rejects. *)
Inductive bound : Type :=
| BNone
| BInt (i : Z)
| BStr (s : string)
| BOther.

(** How list slicing clamps an integer bound into [0 .. n]. *)
Definition adjust (n i : Z) : Z :=
  if i <? 0 then Z.max 0 (i + n) else Z.min i n.

Definition slice_bound (n default : Z) (b : bound) : result Z :=
  match b with
  | BNone => Ok default
  | BInt i => Ok (adjust n i)
  | BStr _ | BOther => Raise TypeError
  end.

(** [xs[start:stop]] (step 1): the elements at positions [start .. stop-1]
    after clamping, none when [stop <= start]. *)
Definition py_slice {A : Type} (xs : list A) (start stop : bound) : result (list A) :=
  let? s := slice_bound (len xs) 0 start in
  let? e := slice_bound (len xs) (len xs) stop in
  Ok (firstn (Z.to_nat (e - s)) (skipn (Z.to_nat s) xs)).

(** Whether the strings of a list are all different. *)
Fixpoint distinct (names : list string) : bool :=
  match names with
  | [] => true
  | n :: rest => negb (existsb (String.eqb n) rest) && distinct rest
  end.

(** ** Keys *)

(** What [get_item], [get_layer_index] and [indexable_call] tell apart with
    [isinstance]: an int, a str, a slice (whose [step] is never read), or a
    value of any other type. *)
Inductive key : Type :=
| KInt (k : Z)
| KStr (s : string)
| KSlice (start stop : bound)
| KOther.

Section Network.

(** The tensors the layers map; supplied by the tensor library. *)
Variable tensor : Type.

(** A layer as the indexer and Keras use it: its [name], whether it is a
    Keras [InputLayer], and what calling it computes. *)
Record Layer : Type := mkLayer {
  name : string;
  input_layer : bool;
  call : tensor -> tensor
}.

(** Applying the layers of [ls] one after the other, first to last. *)
Definition chain (ls : list Layer) (x : tensor) : tensor :=
  fold_left (fun v layer => call layer v) ls x.

(** ** Keras' Sequential

    [models.py] imports the sequential composite of the tensor library and
    does not define it.  The layers of one list are taken to be different
    objects. *)

(** Modelled from the spec: [Sequential.layers], the layers a sequential
    composite lists, is not in [models.py].  The composite owns the layers
    added to it in order; Keras leaves an [InputLayer] that heads them out
    of the list. *)
Definition Sequential_layers (added : list Layer) : list Layer :=
  match added with
  | first :: rest => if input_layer first then rest else added
  | [] => []
  end.

(** Modelled from the spec: [Sequential(layers)], the constructor of the
    sequential composite, is not in [models.py].  The spec has a layer's
    name unique within its owning sequence; Keras enforces it when the
    layers are added, raising ValueError for a layer whose name one of the
    layers it lists already bears.  The result is the layers added. *)
Definition Sequential (ls : list Layer) : result (list Layer) :=
  if distinct (map name (Sequential_layers ls)) then Ok ls else Raise ValueError.

(** Modelled from the spec: calling a sequential composite is not in
    [models.py].  The composite chains the layers it lists, first to
    last. *)
Definition Sequential_call (added : list Layer) (x : tensor) : tensor :=
  chain (Sequential_layers added) x.

(** ** Network_Indexer *)

(** The body of the scan of [get_layer_index] for a str key:
    [if layer.name == key: index = l]. *)
Definition scan_step (k : string) (index : option Z) (entry : Z * Layer) : option Z :=
  let '(l, layer) := entry in
  if String.eqb (name layer) k then Some l else index.

(** The scan itself: [for l, layer in zip(range(len(layers)), layers)],
    with no [break]. *)
Definition scan_names (layers : list Layer) (k : string) : option Z :=
  fold_left (scan_step k) (combine (range (len layers)) layers) None.

Definition get_layer_index (layers : list Layer) (k : key) : result Z :=
  match k with
  | KInt key =>
      if key >=? len layers then Raise IndexError
      else
        let index := if key <? 0 then Some (len layers + key) else None in
        let index := key in
        Ok index
  | KStr key =>
      match scan_names layers key with
      | Some index => Ok index
      | None => Raise ValueError
      end
  | KSlice _ _ | KOther => Raise TypeError
  end.

(** What [get_item] returns: one layer, a plain list of layers, or a
    [Sequential] the layers of a list were added to. *)
Inductive item : Type :=
| ILayer (layer : Layer)
| IList (ls : list Layer)
| ISequential (ls : list Layer).

Definition get_item (layers : list Layer) (k : key) : result item :=
  match k with
  | KInt _ | KStr _ =>
      let? i := get_layer_index layers k in
      let? layer := py_index layers i in
      Ok (ILayer layer)
  | KSlice start stop =>
      let? start :=
        match start with
        | BStr s => let? i := get_layer_index layers (KStr s) in Ok (BInt i)
        | _ => Ok start
        end in
      let? stop :=
        match stop with
        | BStr s => let? i := get_layer_index layers (KStr s) in Ok (BInt (i + 1))
        | _ => Ok stop
        end in
      let? sub := py_slice layers start stop in
      if 1 <? len sub then
        (let? model := Sequential sub in Ok (ISequential model))
      else Ok (IList sub)
  | KOther => Raise IndexError
  end.

(** [layers[l](inputs)]: fetch the layer at [l], record the invocation, and
    return what the layer computes. *)
Definition call_layer (layers : list Layer) (l : Z) (inputs : tensor) : M (list Z) tensor :=
  layer <- lift (py_index layers l) ;;
  _ <- emit l ;;
  ret (call layer inputs).

(** The loop of [indexable_call] over the remaining indices [ls]:
    [continue] below [start], [break] at [last]. *)
Fixpoint forward (layers : list Layer) (start last : Z) (ls : list Z)
    (inputs : tensor) (outputs : option tensor) : M (list Z) (option tensor) :=
  match ls with
  | [] => ret outputs
  | l :: rest =>
      if l <? start then forward layers start last rest inputs outputs
      else
        out <- call_layer layers l inputs ;;
        if l =? last then ret (Some out)
        else forward layers start last rest out (Some out)
  end.

Definition indexable_call (layers : list Layer) (inputs : tensor)
    (start_layer last_layer : option key) : M (list Z) (option tensor) :=
  start <- match start_layer with
           | Some k => lift (get_layer_index layers k)
           | None => ret 0
           end ;;
  last <- match last_layer with
          | Some k => lift (get_layer_index layers k)
          | None => ret (len layers - 1)
          end ;;
  forward layers start last (range (last + 1)) inputs None.

(** ** Powered_Sequential and Powered_Model

    Both keep the layer list Keras derives for them and hand every keyed
    access and every call to the indexer. *)

Record Powered_Sequential : Type := mkSequential {
  seq_layers : list Layer;
  seq_name : string
}.

(** [super().__init__(layers=layers, name=name)]: the layers are added to
    a Keras [Sequential], and [self.layers] is what that one lists. *)
Definition Powered_Sequential_init (layers : list Layer) (model_name : string)
    : result Powered_Sequential :=
  let? added := Sequential layers in
  Ok (mkSequential (Sequential_layers added) model_name).

Definition Powered_Sequential_len (self : Powered_Sequential) : Z :=
  len (seq_layers self).

Definition Powered_Sequential_getitem (self : Powered_Sequential) (k : key) : result item :=
  get_item (seq_layers self) k.

Definition Powered_Sequential_call (self : Powered_Sequential) (inputs : tensor)
    (training : bool) (start_layer last_layer : option key) : M (list Z) (option tensor) :=
  indexable_call (seq_layers self) inputs start_layer last_layer.

Record Powered_Model : Type := mkModel {
  model_layers : list Layer;
  model_name : string
}.

Definition Powered_Model_len (self : Powered_Model) : Z :=
  len (model_layers self).

Definition Powered_Model_getitem (self : Powered_Model) (k : key) : result item :=
  get_item (model_layers self) k.

Definition Powered_Model_call (self : Powered_Model) (inputs : tensor)
    (training : bool) (start_layer last_layer : option key) : M (list Z) (option tensor) :=
  indexable_call (model_layers self) inputs start_layer last_layer.

(** ** DetectorNet *)

Record DetectorNet : Type := mkDetector {
  detector_model : Powered_Model;
  input_layers : list Layer;
  predictors : list Layer
}.

(** Modelled from the spec: the layer list Keras' functional [Model] derives
    from the wiring [inputs=input_layers, outputs=[predictors[i](input_layers[i])]]
    is not computed in [models.py]; the spec gives it as the input stages
    followed by the predictors. *)
Definition DetectorNet_init (input_layers predictors : list Layer) (name : string)
    : DetectorNet :=
  {| detector_model := mkModel (input_layers ++ predictors) name;
     input_layers := input_layers;
     predictors := predictors |}.

Definition DetectorNet_len (self : DetectorNet) : Z :=
  len (model_layers (detector_model self)).

(** The loop of [DetectorNet.call] over the remaining branch indices. *)
Fixpoint DetectorNet_branches (self : DetectorNet) (inputs : list tensor)
    (branches : list Z) (outputs : list (option tensor))
    : M (list Z) (list (option tensor)) :=
  match branches with
  | [] => ret outputs
  | i :: rest =>
      x <- lift (py_index inputs i) ;;
      in_predict <- call_layer (model_layers (detector_model self)) i x ;;
      let out_layer := i + len (input_layers self) in
      out <- Powered_Model_call (detector_model self) in_predict false
               (Some (KInt out_layer)) (Some (KInt out_layer)) ;;
      DetectorNet_branches self inputs rest (outputs ++ [out])
  end.

Definition DetectorNet_call (self : DetectorNet) (inputs : list tensor)
    (training : bool) : M (list Z) (list (option tensor)) :=
  DetectorNet_branches self inputs (range (len inputs)) [].

(** What each branch is meant to produce: the predictor applied to what its
    input stage makes of its input. *)
Definition branch_outputs (stages preds : list Layer) (xs : list tensor) : list tensor :=
  map (fun '(s, p, x) => call p (call s x)) (combine (combine stages preds) xs).

(** The invocations of the branches [k .. k+m-1] of a detector with [n]
    input stages: stage [i], then predictor [n + i]. *)
Definition branch_log (n : Z) (k m : nat) : list Z :=
  flat_map (fun i => [Z.of_nat i; Z.of_nat i + n]) (seq k m).

(** ** BaseNet *)

(** What building a backbone does to the outside world, in order. *)
Inductive build_event : Type :=
| LoadVGG16 (include_top : bool)
| NewLayer (layer_name : string)
| InitSequential (model_name : string)
| SetWeights (layer_name : string).

Definition BASE_WEIGHTS : string := "imagenet".

(** The identifiers [BaseNet] accepts for its one backbone. *)
Definition recognized : list string := ["VGG16"; "VGG-16"; "VGG_16"]%string.

(** [xs[i] = f(xs[i])] with the indexing of [py_index]: how a method that
    mutates the object stored at [i] shows in a list of values. *)
Definition py_update {A : Type} (xs : list A) (i : Z) (f : A -> A) : result (list A) :=
  let? a := py_index xs i in
  let j := Z.to_nat (if i <? 0 then i + len xs else i) in
  Ok (firstn j xs ++ f a :: skipn (S j) xs).

Section Backbone.

(** The collaborators taken from Keras and NumPy. *)
Variable shape : Type.
Variable weights : Type.
(** [VGG16(include_top, weights, input_shape).layers]. *)
Variable VGG16 : bool -> string -> option shape -> list Layer.
(** [MaxPool2D(pool_size, strides, padding="same", name)]. *)
Variable MaxPool2D : Z -> Z -> string -> Layer.
(** [Conv2D(filters, kernel_size, padding="same", dilation_rate, activation="relu", name)]. *)
Variable Conv2D : Z -> Z -> Z -> string -> Layer.
Variable get_weights : Layer -> list weights.
Variable set_weights : list weights -> Layer -> Layer.
(** [np.reshape(w, (-1,))]. *)
Variable flatten : weights -> weights.
(** One draw of [np.random.choice(source, size)]. *)
Variable random_choice : weights -> list Z -> weights.

(** [a, b = ws]. *)
Definition unpack_pair (ws : list weights) : result (weights * weights) :=
  match ws with
  | [a; b] => Ok (a, b)
  | _ => Raise ValueError
  end.

Definition BaseNet_init (architecture : string) (input_shape : shape) (model_name : string)
    : M (list build_event) Powered_Sequential :=
  if existsb (String.eqb architecture) recognized then
    _ <- emit (LoadVGG16 false) ;;
    let arch := VGG16 false BASE_WEIGHTS (Some input_shape) in
    base_layers <- lift (py_slice arch (BInt 0) (BInt (-1))) ;;
    _ <- emit (LoadVGG16 true) ;;
    let dummy_arch := VGG16 true BASE_WEIGHTS None in
    head_layers <- lift (py_slice dummy_arch (BInt (-3)) BNone) ;;
    old_pool <- lift (py_index arch (-1)) ;;
    _ <- emit (NewLayer (name old_pool)) ;;
    let base_layers := base_layers ++ [MaxPool2D 3 1 (name old_pool)] in
    _ <- emit (NewLayer "head_conv6") ;;
    let base_layers := base_layers ++ [Conv2D 1024 3 6 "head_conv6"] in
    _ <- emit (NewLayer "head_conv7") ;;
    let base_layers := base_layers ++ [Conv2D 1024 1 1 "head_conv7"] in
    self <- lift (Powered_Sequential_init base_layers model_name) ;;
    _ <- emit (InitSequential model_name) ;;
    fc6_layer <- lift (py_index head_layers 0) ;;
    fc6 <- lift (unpack_pair (get_weights fc6_layer)) ;;
    fc7_layer <- lift (py_index head_layers 1) ;;
    fc7 <- lift (unpack_pair (get_weights fc7_layer)) ;;
    layers <- lift (py_update (seq_layers self) (-2)
                (set_weights [random_choice (flatten (fst fc6)) [3; 3; 512; 1024];
                              random_choice (snd fc6) [1024]])) ;;
    _ <- emit (SetWeights "head_conv6") ;;
    layers <- lift (py_update layers (-1)
                (set_weights [random_choice (flatten (fst fc7)) [1; 1; 1024; 1024];
                              random_choice (snd fc7) [1024]])) ;;
    _ <- emit (SetWeights "head_conv7") ;;
    ret (mkSequential layers (seq_name self))
  else
    throw TypeError.

End Backbone.

(** ** ExtraNet *)

Definition ExtraNet_init (layers : list Layer) (model_name : string)
    : result Powered_Sequential :=
  Powered_Sequential_init layers model_name.

End Network.

Arguments mkLayer {tensor} name input_layer call.
Arguments name {tensor} _.
Arguments input_layer {tensor} _.
Arguments Sequential_layers {tensor} added.
Arguments Sequential {tensor} ls.
Arguments Powered_Sequential_init {tensor} layers model_name.
Arguments call {tensor} _ _.
Arguments chain {tensor} ls x.
Arguments scan_step {tensor} k index entry.
Arguments scan_names {tensor} layers k.
Arguments get_layer_index {tensor} layers k.
Arguments ILayer {tensor} layer.
Arguments IList {tensor} ls.
Arguments ISequential {tensor} ls.
Arguments Sequential_call {tensor} added x.
Arguments get_item {tensor} layers k.
Arguments call_layer {tensor} layers l inputs _.
Arguments forward {tensor} layers start last ls inputs outputs _.
Arguments indexable_call {tensor} layers inputs start_layer last_layer _.
Arguments mkSequential {tensor} seq_layers seq_name.
Arguments seq_layers {tensor} _.
Arguments Powered_Sequential_call {tensor} self inputs training start_layer last_layer _.
Arguments mkModel {tensor} model_layers model_name.
Arguments model_layers {tensor} _.
Arguments Powered_Model_call {tensor} self inputs training start_layer last_layer _.
Arguments mkDetector {tensor} detector_model input_layers predictors.
Arguments detector_model {tensor} _.
Arguments input_layers {tensor} _.
Arguments predictors {tensor} _.
Arguments DetectorNet_init {tensor} input_layers predictors name.
Arguments DetectorNet_branches {tensor} self inputs branches outputs _.
Arguments DetectorNet_call {tensor} self inputs training _.
Arguments branch_outputs {tensor} stages preds xs.
Arguments BaseNet_init {tensor shape weights} VGG16 MaxPool2D Conv2D get_weights
  set_weights flatten random_choice architecture input_shape model_name _.

(** ** Derived notions used in the statements *)

(** The position a start or last key of [indexable_call] resolves to; an
    absent key stands for [default]. *)
Definition resolved {tensor : Type} (layers : list (Layer tensor)) (default : Z)
    (k : option key) : result Z :=
  match k with
  | Some k => get_layer_index layers k
  | None => Ok default
  end.

(** The sub-sequence a slice key selects in [get_item], before it is
    wrapped: both bounds resolved, then [layers[start:stop]]. *)
Definition sub_sequence {tensor : Type} (layers : list (Layer tensor))
    (start stop : bound) : result (list (Layer tensor)) :=
  let? start :=
    match start with
    | BStr s => let? i := get_layer_index layers (KStr s) in Ok (BInt i)
    | _ => Ok start
    end in
  let? stop :=
    match stop with
    | BStr s => let? i := get_layer_index layers (KStr s) in Ok (BInt (i + 1))
    | _ => Ok stop
    end in
  py_slice layers start stop.

(** The positions [k1, k1+1, .., k2]. *)
Definition span (k1 k2 : Z) : list Z :=
  map (fun i => k1 + Z.of_nat i) (seq 0 (Z.to_nat (k2 - k1 + 1))).

(** What [get_item] makes of the stretch a slice key selects: at most one
    layer stays a list; more become a [Sequential] when the names of those
    Keras lists for it are all different, and a ValueError otherwise. *)
Definition slice_result {tensor : Type} (sub : list (Layer tensor))
    : result (item tensor) :=
  match sub with
  | [] | [_] => Ok (IList sub)
  | _ :: _ :: _ =>
      if distinct (map name (Sequential_layers sub)) then Ok (ISequential sub)
      else Raise ValueError
  end.

(** A slice bound list slicing accepts as it is: [None] or an integer. *)
Definition plain_bound (b : bound) : bool :=
  match b with
  | BNone | BInt _ => true
  | BStr _ | BOther => false
  end.

(** ** Sample networks over integer tensors *)

Module Samples.

Definition conv1 : Layer Z := mkLayer "conv1" false (fun v => v + 1).
Definition conv2 : Layer Z := mkLayer "conv2" false (fun v => 2 * v).
Definition pool : Layer Z := mkLayer "pool" false (fun v => v - 3).
Definition conv1_again : Layer Z := mkLayer "conv1" false (fun v => v * v).

Definition net3 : list (Layer Z) := [conv1; conv2; pool].
Definition net_dup : list (Layer Z) := [conv1; conv2; conv1_again; pool].

(** The [InputLayer] that heads the layers of a functional Keras model. *)
Definition input_1 : Layer Z := mkLayer "input_1" true (fun v => v).

(** Stand-ins for the Keras and NumPy collaborators of [BaseNet]: a
    pretrained model of an input layer and three feature layers, with three
    head layers when the top is included; weights are integers. *)
Definition fc1 : Layer Z := mkLayer "fc1" false (fun v => v + 10).
Definition fc2 : Layer Z := mkLayer "fc2" false (fun v => v + 20).
Definition predictions : Layer Z := mkLayer "predictions" false (fun v => v + 30).

Definition VGG16 (include_top : bool) (source : string) (input_shape : option unit)
    : list (Layer Z) :=
  if include_top then input_1 :: net3 ++ [fc1; fc2; predictions]
  else input_1 :: net3.

Definition MaxPool2D (pool_size strides : Z) (nm : string) : Layer Z :=
  mkLayer nm false (fun v => v).

Definition Conv2D (filters kernel_size dilation_rate : Z) (nm : string) : Layer Z :=
  mkLayer nm false (fun v => filters * v).

Definition get_weights (layer : Layer Z) : list Z := [call layer 0; call layer 1].

Definition set_weights (ws : list Z) (layer : Layer Z) : Layer Z :=
  mkLayer (name layer) (input_layer layer)
    (fun v => call layer v + fold_right Z.add 0 ws).

Definition random_choice (source : Z) (size : list Z) : Z := source.

End Samples.

(** ** Lists and ranges *)

Lemma range_of_nat (n : nat) : range (Z.of_nat n) = map Z.of_nat (seq 0 n).
Proof. unfold range. now rewrite Nat2Z.id. Qed.

Lemma range_nonpos (n : Z) : n <= 0 -> range n = [].
Proof.
  intros Hn. unfold range.
  replace (Z.to_nat n) with 0%nat by lia. reflexivity.
Qed.

Lemma len_app {A : Type} (xs ys : list A) : len (xs ++ ys) = len xs + len ys.
Proof. unfold len. rewrite length_app. lia. Qed.

Lemma len_nonneg {A : Type} (xs : list A) : 0 <= len xs.
Proof. unfold len. lia. Qed.

Lemma py_index_nth {A : Type} (xs : list A) (i : nat) (a : A) :
  nth_error xs i = Some a -> py_index xs (Z.of_nat i) = Ok a.
Proof.
  intros Hnth. unfold py_index.
  assert (Hlt : (i < List.length xs)%nat)
    by (apply nth_error_Some; congruence).
  destruct (Z.ltb_spec (Z.of_nat i) 0) as [Hneg|_]; [lia|].
  destruct (Z.ltb_spec (Z.of_nat i) 0) as [Hneg|_]; [lia|].
  destruct (Z.leb_spec (len xs) (Z.of_nat i)) as [Hge|_]; [unfold len in Hge; lia|].
  cbn [orb]. now rewrite Nat2Z.id, Hnth.
Qed.

Lemma py_index_middle {A : Type} (pre post : list A) (a : A) :
  py_index (pre ++ a :: post) (len pre) = Ok a.
Proof.
  apply py_index_nth. rewrite nth_error_app2 by lia.
  now rewrite Nat.sub_diag.
Qed.

Lemma py_index_inv {A : Type} (xs : list A) (i : Z) (a : A) :
  0 <= i -> py_index xs i = Ok a ->
  i < len xs /\ nth_error xs (Z.to_nat i) = Some a.
Proof.
  intros Hi. unfold py_index.
  destruct (Z.ltb_spec i 0) as [Hneg|_]; [lia|].
  destruct (Z.ltb_spec i 0) as [Hneg|_]; [lia|].
  destruct (Z.leb_spec (len xs) i) as [Hge|Hlt]; cbn [orb]; [discriminate|].
  destruct (nth_error xs (Z.to_nat i)) eqn:Hnth; [|discriminate].
  intros [= ->]. now split.
Qed.

(** ** Position resolution *)

Section Resolution.

Context {tensor : Type}.
Implicit Types (layers pre post : list (Layer tensor)) (layer : Layer tensor).

Lemma scan_no_match (k : string) layers :
  Forall (fun layer => name layer <> k) layers ->
  forall (a : nat) (index : option Z),
    fold_left (scan_step k)
      (combine (map Z.of_nat (seq a (List.length layers))) layers) index = index.
Proof.
  induction 1 as [|layer rest Hne _ IH]; intros a index; cbn; [reflexivity|].
  apply String.eqb_neq in Hne. rewrite Hne. apply IH.
Qed.

Lemma scan_last_match (k : string) pre layer post :
  name layer = k ->
  Forall (fun layer' => name layer' <> k) post ->
  forall (a : nat) (index : option Z),
    fold_left (scan_step k)
      (combine (map Z.of_nat (seq a (List.length (pre ++ layer :: post))))
               (pre ++ layer :: post)) index
    = Some (Z.of_nat (a + List.length pre)).
Proof.
  intros Hname Hpost.
  induction pre as [|p pre IH]; intros a index; cbn.
  - apply String.eqb_eq in Hname. rewrite Hname.
    rewrite scan_no_match by assumption. now rewrite Nat.add_0_r.
  - rewrite IH. f_equal. lia.
Qed.

(** Whatever the scan returns is a position of the list holding a layer of
    that name, unless it is the value the scan started with. *)
Lemma scan_sound (k : string) layers :
  forall (a : nat) (index : option Z) (j : Z),
    fold_left (scan_step k)
      (combine (map Z.of_nat (seq a (List.length layers))) layers) index = Some j ->
    index = Some j \/
    exists layer, Z.of_nat a <= j < Z.of_nat a + len layers
                  /\ nth_error layers (Z.to_nat j - a) = Some layer
                  /\ name layer = k.
Proof.
  induction layers as [|layer rest IH]; intros a index j; cbn.
  - now left.
  - intros Hscan. apply IH in Hscan as [Hhere|(layer' & Hj & Hnth & Hname)].
    + destruct (String.eqb_spec (name layer) k) as [Hname|_]; [|now left].
      injection Hhere as <-. right. exists layer.
      rewrite Nat2Z.id, Nat.sub_diag. unfold len. cbn [List.length nth_error].
      repeat split; [lia|lia|assumption].
    + right. exists layer'. unfold len in *. cbn [List.length].
      replace (Z.to_nat j - a)%nat with (S (Z.to_nat j - S a)) by lia.
      repeat split; [lia|lia|assumption|assumption].
Qed.

Lemma get_layer_index_name_sound layers (k : string) (j : Z) :
  get_layer_index layers (KStr k) = Ok j ->
  0 <= j < len layers /\
  exists layer, py_index layers j = Ok layer /\ name layer = k.
Proof.
  unfold get_layer_index.
  unfold scan_names, len at 1. rewrite range_of_nat.
  destruct (fold_left _ _ _) as [i|] eqn:Hscan; [|discriminate].
  intros [= ->]. apply scan_sound in Hscan as [Habs|(layer & Hj & Hnth & Hname)];
    [discriminate|].
  cbn in Hj. split; [lia|]. exists layer. split; [|assumption].
  rewrite Nat.sub_0_r in Hnth. apply py_index_nth in Hnth.
  now rewrite Z2Nat.id in Hnth by lia.
Qed.

(** What the int branch of [get_layer_index] computes. *)
Lemma get_layer_index_int layers (k : Z) :
  get_layer_index layers (KInt k)
  = if k >=? len layers then Raise IndexError else Ok k.
Proof. reflexivity. Qed.

Lemma get_layer_index_position layers (k : Z) :
  k < len layers -> get_layer_index layers (KInt k) = Ok k.
Proof.
  intros Hk. rewrite get_layer_index_int.
  destruct (Z.geb_spec k (len layers)); [lia|reflexivity].
Qed.

End Resolution.

(** ** The forward loop *)

Section Forward.

Context {tensor : Type}.
Implicit Types (layers pre mid post : list (Layer tensor)) (x : tensor).

Lemma call_layer_middle pre (layer : Layer tensor) post x (log : list Z) :
  call_layer (pre ++ layer :: post) (len pre) x log
  = (Ok (call layer x), log ++ [len pre]).
Proof.
  unfold call_layer, bind, lift, emit, ret. now rewrite py_index_middle.
Qed.

(** Indices below [start] are stepped over without touching anything. *)
Lemma forward_skip layers (start last : Z) (skipped rest : list Z) x
    (outputs : option tensor) (log : list Z) :
  Forall (fun l => l < start) skipped ->
  forward layers start last (skipped ++ rest) x outputs log
  = forward layers start last rest x outputs log.
Proof.
  induction 1 as [|l skipped Hl _ IH]; cbn; [reflexivity|].
  destruct (Z.ltb_spec l start); [assumption|lia].
Qed.

(** From [start] on, the loop chains the layers up to [last] and stops. *)
Lemma forward_run mid :
  mid <> [] ->
  forall pre post (start : Z) x (outputs : option tensor) (log : list Z),
    start <= len pre ->
    forward (pre ++ mid ++ post) start (len pre + len mid - 1)
      (map Z.of_nat (seq (List.length pre) (List.length mid))) x outputs log
    = (Ok (Some (chain mid x)),
       log ++ map Z.of_nat (seq (List.length pre) (List.length mid))).
Proof.
  induction mid as [|layer mid IH]; [congruence|].
  intros _ pre post start x outputs log Hstart.
  cbn [List.length seq map forward].
  fold (len pre).
  destruct (Z.ltb_spec (len pre) start) as [Hlt|_]; [lia|].
  unfold bind at 1. cbn [app]. rewrite call_layer_middle.
  destruct mid as [|layer' mid].
  - replace (len pre + len [layer] - 1) with (len pre)
      by (unfold len; cbn [List.length]; lia).
    now rewrite Z.eqb_refl.
  - destruct (Z.eqb_spec (len pre) (len pre + len (layer :: layer' :: mid) - 1))
      as [Heq|_].
    { unfold len in Heq. cbn [List.length] in Heq. lia. }
    specialize (IH ltac:(discriminate) (pre ++ [layer]) post start
                  (call layer x) (Some (call layer x)) (log ++ [len pre])).
    rewrite <- app_assoc in IH. cbn [app] in IH.
    rewrite length_app, Nat.add_1_r in IH.
    replace (len (pre ++ [layer]) + len (layer' :: mid) - 1)
      with (len pre + len (layer :: layer' :: mid) - 1) in IH
      by (rewrite len_app; unfold len; cbn [List.length]; lia).
    etransitivity;
      [apply IH; rewrite len_app; pose proof (len_nonneg [layer]); lia|].
    now rewrite <- app_assoc.
Qed.

(** Executing the stretch [mid] of [pre ++ mid ++ post] by its two end
    positions. *)
Lemma indexable_call_stretch pre mid post x (log : list Z) :
  mid <> [] ->
  indexable_call (pre ++ mid ++ post) x
    (Some (KInt (len pre))) (Some (KInt (len pre + len mid - 1))) log
  = (Ok (Some (chain mid x)),
     log ++ map Z.of_nat (seq (List.length pre) (List.length mid))).
Proof.
  intros Hmid.
  assert (Hpos : 0 < len mid)
    by (destruct mid; [congruence|unfold len; cbn [List.length]; lia]).
  pose proof (len_nonneg post) as Hpost.
  unfold indexable_call, bind, lift.
  rewrite !get_layer_index_position by (rewrite !len_app; lia).
  replace (len pre + len mid - 1 + 1)
    with (Z.of_nat (List.length pre + List.length mid)) by (unfold len; lia).
  rewrite range_of_nat, seq_app, map_app, forward_skip.
  - now apply forward_run.
  - apply Forall_forall. intros l Hin.
    apply in_map_iff in Hin as (i & <- & Hin). apply in_seq in Hin.
    unfold len. lia.
Qed.

(** A single layer executed by position. *)
Lemma indexable_call_single pre (layer : Layer tensor) post x (log : list Z) :
  indexable_call (pre ++ layer :: post) x
    (Some (KInt (len pre))) (Some (KInt (len pre))) log
  = (Ok (Some (call layer x)), log ++ [len pre]).
Proof.
  pose proof (indexable_call_stretch pre [layer] post x log ltac:(discriminate)) as H.
  replace (len pre + len [layer] - 1) with (len pre) in H
    by (unfold len; cbn [List.length]; lia).
  exact H.
Qed.

(** When every index of the loop lies below [start], nothing runs. *)
Lemma forward_nothing layers (start last n : Z) x (log : list Z) :
  n <= start ->
  forward layers start last (range n) x None log = (Ok None, log).
Proof.
  intros Hn.
  rewrite <- (app_nil_r (range n)), forward_skip; [reflexivity|].
  apply Forall_forall. intros l Hin. unfold range in Hin.
  apply in_map_iff in Hin as (i & <- & Hin). apply in_seq in Hin. lia.
Qed.

End Forward.

(** ** Slices *)

Lemma py_index_nonneg {A : Type} (xs : list A) (i : Z) :
  0 <= i ->
  py_index xs i = match nth_error xs (Z.to_nat i) with
                  | Some a => Ok a
                  | None => Raise IndexError
                  end.
Proof.
  intros Hi. unfold py_index.
  destruct (Z.ltb_spec i 0) as [Hneg|_]; [lia|].
  destruct (Z.ltb_spec i 0) as [Hneg|_]; [lia|].
  destruct (Z.leb_spec (len xs) i) as [Hge|_]; cbn [orb]; [|reflexivity].
  assert (Hnone : nth_error xs (Z.to_nat i) = None)
    by (apply nth_error_None; unfold len in Hge; lia).
  now rewrite Hnone.
Qed.

Lemma adjust_inside (n i : Z) : 0 <= i <= n -> adjust n i = i.
Proof.
  intros Hi. unfold adjust.
  destruct (Z.ltb_spec i 0); lia.
Qed.

(** Slicing by two positions inside the list. *)
Lemma py_slice_inside {A : Type} (xs : list A) (s e : Z) :
  0 <= s <= len xs -> 0 <= e <= len xs ->
  py_slice xs (BInt s) (BInt e)
  = Ok (firstn (Z.to_nat (e - s)) (skipn (Z.to_nat s) xs)).
Proof.
  intros Hs He. unfold py_slice, slice_bound, bind_result.
  now rewrite !adjust_inside by assumption.
Qed.

Lemma py_slice_middle {A : Type} (pre mid post : list A) :
  py_slice (pre ++ mid ++ post) (BInt (len pre)) (BInt (len pre + len mid)) = Ok mid.
Proof.
  pose proof (len_nonneg pre). pose proof (len_nonneg mid).
  pose proof (len_nonneg post).
  rewrite py_slice_inside by (rewrite !len_app; lia).
  f_equal. unfold len.
  replace (Z.to_nat (Z.of_nat (List.length pre) + Z.of_nat (List.length mid)
                     - Z.of_nat (List.length pre)))
    with (List.length mid + 0)%nat by lia.
  rewrite Nat2Z.id, skipn_app, skipn_all, Nat.sub_diag.
  cbn [skipn app]. rewrite firstn_app_2. cbn [firstn]. apply app_nil_r.
Qed.

(** A list cut at two positions [k1 <= k2] of it. *)
Lemma cut_at {A : Type} (xs : list A) (k1 k2 : Z) :
  0 <= k1 -> k1 <= k2 -> k2 < len xs ->
  exists pre mid a post,
    xs = pre ++ mid ++ a :: post /\ len pre = k1 /\ len mid = k2 - k1.
Proof.
  intros H0 H12 H2. unfold len in *.
  pose proof (firstn_skipn (Z.to_nat k1) xs) as Hcut1.
  pose proof (firstn_skipn (Z.to_nat (k2 - k1)) (skipn (Z.to_nat k1) xs)) as Hcut2.
  destruct (skipn (Z.to_nat (k2 - k1)) (skipn (Z.to_nat k1) xs)) as [|a post] eqn:Htail.
  - apply (f_equal (@List.length A)) in Htail.
    rewrite !length_skipn in Htail. cbn in Htail. lia.
  - exists (firstn (Z.to_nat k1) xs),
           (firstn (Z.to_nat (k2 - k1)) (skipn (Z.to_nat k1) xs)), a, post.
    rewrite Hcut2, Hcut1, !length_firstn, length_skipn.
    repeat split; lia.
Qed.

Lemma span_seq (a n : nat) :
  map Z.of_nat (seq a n) = map (fun i => Z.of_nat a + Z.of_nat i) (seq 0 n).
Proof.
  revert a. induction n as [|n IH]; intros a; [reflexivity|].
  cbn [seq map]. f_equal; [lia|].
  rewrite (IH (S a)), <- (seq_shift n 0), map_map.
  apply map_ext. intros i. lia.
Qed.

Lemma span_bounds (k1 k2 : Z) : Forall (fun l => k1 <= l <= k2) (span k1 k2).
Proof.
  apply Forall_forall. intros l Hin. unfold span in Hin.
  apply in_map_iff in Hin as (i & <- & Hin). apply in_seq in Hin. lia.
Qed.

Lemma span_ascending (k1 k2 : Z) : StronglySorted Z.lt (span k1 k2).
Proof.
  unfold span. generalize (Z.to_nat (k2 - k1 + 1)) as n. generalize 0%nat as a.
  intros a n. revert a. induction n as [|n IH]; intros a; cbn [seq map].
  - constructor.
  - constructor; [apply IH|].
    apply Forall_forall. intros l Hin.
    apply in_map_iff in Hin as (i & <- & Hin). apply in_seq in Hin. lia.
Qed.

(** ** Partial execution *)

(** C1 (as the code has it).  When the start and last keys resolve, without
    error, to positions with [start > last], [indexable_call] raises nothing:
    it invokes no layer and returns [None].  [Powered_Sequential.call] and
    [Powered_Model.call] do the same, whatever [training] is. *)
Theorem indexable_call_empty_range {tensor : Type} (layers : list (Layer tensor))
    (x : tensor) (start_layer last_layer : option key) (start last : Z)
    (log : list Z)
    (Hstart : resolved layers 0 start_layer = Ok start)
    (Hlast : resolved layers (len layers - 1) last_layer = Ok last)
    (Hgt : start > last) :
  indexable_call layers x start_layer last_layer log = (Ok None, log)
  /\ (forall (training : bool) (nm : string),
        Powered_Sequential_call (mkSequential layers nm) x training
          start_layer last_layer log = (Ok None, log))
  /\ (forall (training : bool) (nm : string),
        Powered_Model_call (mkModel layers nm) x training
          start_layer last_layer log = (Ok None, log)).
Proof.
  assert (Hcall : indexable_call layers x start_layer last_layer log = (Ok None, log)).
  { unfold indexable_call, bind, lift, ret.
    destruct start_layer as [ks|], last_layer as [kl|]; cbn [resolved] in Hstart, Hlast;
      try rewrite Hstart; try rewrite Hlast;
      try (injection Hstart as <-); try (injection Hlast as <-);
      apply forward_nothing; lia. }
  repeat split; intros; exact Hcall.
Qed.

Lemma indexable_call_empty_range_witness :
  indexable_call Samples.net3 7 (Some (KInt 2)) (Some (KInt 0)) [] = (Ok None, []).
Proof.
  apply (indexable_call_empty_range Samples.net3 7
           (Some (KInt 2)) (Some (KInt 0)) 2 0 []);
    [reflexivity | reflexivity | lia].
Defined.

(** C1 (as the spec has it) fails: with start position 2 and last position 0
    on three layers the call returns normally. *)
Lemma indexable_call_empty_range_returns :
  resolved Samples.net3 0 (Some (KInt 2)) = Ok 2
  /\ resolved Samples.net3 (len Samples.net3 - 1) (Some (KInt 0)) = Ok 0
  /\ 2 > 0
  /\ ~ raises (fst (indexable_call Samples.net3 7 (Some (KInt 2)) (Some (KInt 0)) [])).
Proof.
  repeat split; try reflexivity.
  intros [e He]. vm_compute in He. discriminate He.
Qed.

(** C4.  For valid positions [k1 <= k2], the call with those keys invokes
    exactly the layers at [k1, k1+1, .., k2], in that order and nothing
    outside [k1 .. k2], feeds each the output of the one before, and returns
    the output of the layer at [k2]. *)
Theorem indexable_call_between {tensor : Type} (layers : list (Layer tensor))
    (x : tensor) (k1 k2 : Z) (log : list Z)
    (Hk1 : 0 <= k1) (Hk12 : k1 <= k2) (Hk2 : k2 < len layers) :
  exists (before : list (Layer tensor)) (layer_k2 : Layer tensor),
    py_slice layers (BInt k1) (BInt k2) = Ok before
    /\ py_index layers k2 = Ok layer_k2
    /\ indexable_call layers x (Some (KInt k1)) (Some (KInt k2)) log
       = (Ok (Some (call layer_k2 (chain before x))), log ++ span k1 k2)
    /\ Forall (fun l => k1 <= l <= k2) (span k1 k2)
    /\ StronglySorted Z.lt (span k1 k2).
Proof.
  destruct (cut_at layers k1 k2 Hk1 Hk12 Hk2)
    as (pre & before & layer_k2 & post & -> & Hpre & Hbefore).
  exists before, layer_k2. repeat split.
  - rewrite <- Hpre. replace k2 with (len pre + len before) by lia.
    apply py_slice_middle.
  - replace k2 with (len (pre ++ before)) by (rewrite len_app; lia).
    rewrite app_assoc. apply py_index_middle.
  - pose proof (indexable_call_stretch pre (before ++ [layer_k2]) post x log) as Hrun.
    assert (Hcount : List.length (before ++ [layer_k2]) = Z.to_nat (k2 - k1 + 1))
      by (rewrite length_app; unfold len in Hbefore; cbn [List.length]; lia).
    rewrite <- app_assoc in Hrun. cbn [app] in Hrun.
    replace (len pre + len (before ++ [layer_k2]) - 1) with k2 in Hrun
      by (unfold len at 2; rewrite Hcount; lia).
    rewrite Hpre in Hrun. rewrite Hrun by (now destruct before).
    unfold chain. rewrite fold_left_app. cbn [fold_left].
    rewrite span_seq, Hcount. fold (len pre). now rewrite Hpre.
  - apply span_bounds.
  - apply span_ascending.
Qed.

Lemma indexable_call_between_witness :
  exists before layer_k2,
    py_slice Samples.net3 (BInt 1) (BInt 2) = Ok before
    /\ py_index Samples.net3 2 = Ok layer_k2
    /\ indexable_call Samples.net3 7 (Some (KInt 1)) (Some (KInt 2)) []
       = (Ok (Some (call layer_k2 (chain before 7))), [] ++ span 1 2)
    /\ Forall (fun l => 1 <= l <= 2) (span 1 2)
    /\ StronglySorted Z.lt (span 1 2).
Proof.
  apply (indexable_call_between Samples.net3 7 1 2 []); [lia | lia | reflexivity].
Defined.

(** C8 (as the code has it).  On a sequence with at least one layer, the call
    without keys is the call with start key 0 and last key [len - 1]. *)
Theorem indexable_call_default_keys {tensor : Type} (layers : list (Layer tensor))
    (x : tensor) (log : list Z) (Hlayers : layers <> []) :
  indexable_call layers x None None log
  = indexable_call layers x (Some (KInt 0)) (Some (KInt (len layers - 1))) log.
Proof.
  assert (Hpos : 0 < len layers)
    by (destruct layers; [congruence|unfold len; cbn [List.length]; lia]).
  unfold indexable_call, bind, lift, ret.
  now rewrite !get_layer_index_position by lia.
Qed.

Lemma indexable_call_default_keys_witness :
  indexable_call Samples.net3 7 None None []
  = indexable_call Samples.net3 7 (Some (KInt 0)) (Some (KInt (len Samples.net3 - 1))) [].
Proof.
  apply (indexable_call_default_keys Samples.net3 7 []). discriminate.
Defined.

(** C8 (as the spec has it) fails on the sequence without layers: the call
    without keys returns [None], the call with keys 0 and -1 raises
    IndexError. *)
Lemma indexable_call_default_keys_empty :
  indexable_call (@nil (Layer Z)) 7 None None [] = (Ok None, [])
  /\ indexable_call (@nil (Layer Z)) 7
       (Some (KInt 0)) (Some (KInt (len (@nil (Layer Z)) - 1))) []
     = (Raise IndexError, [])
  /\ indexable_call (@nil (Layer Z)) 7 None None []
     <> indexable_call (@nil (Layer Z)) 7
          (Some (KInt 0)) (Some (KInt (len (@nil (Layer Z)) - 1))) [].
Proof.
  repeat split. vm_compute. discriminate.
Qed.

(** C10.  Neither composite's call consults [training]: any two values of the
    flag give the same result and the same layer invocations. *)
Theorem call_ignores_training {tensor : Type} (s : Powered_Sequential tensor)
    (m : Powered_Model tensor) (x : tensor) (t1 t2 : bool)
    (start_layer last_layer : option key) (log : list Z) :
  Powered_Sequential_call s x t1 start_layer last_layer log
  = Powered_Sequential_call s x t2 start_layer last_layer log
  /\ Powered_Model_call m x t1 start_layer last_layer log
     = Powered_Model_call m x t2 start_layer last_layer log.
Proof. split; reflexivity. Qed.

(** ** Keys *)

(** C2 (what the code does).  For an int key [get_layer_index] only rejects
    keys at or above the length; the sum [len + key] it computes for a
    negative key is overwritten by the key itself.  On three layers the key
    -1 resolves to -1, not to 2, and the key -5 resolves to -5 instead of
    raising IndexError. *)
Theorem get_layer_index_negative_key :
  get_layer_index Samples.net3 (KInt (-1)) = Ok (-1)
  /\ get_layer_index Samples.net3 (KInt (-5)) = Ok (-5).
Proof. split; reflexivity. Qed.

(** The same at every negative key and every sequence. *)
Lemma get_layer_index_negative {tensor : Type} (layers : list (Layer tensor)) (k : Z) :
  k < 0 -> get_layer_index layers (KInt k) = Ok k.
Proof.
  intros Hk. apply get_layer_index_position. pose proof (len_nonneg layers). lia.
Qed.

(** C5.  For a str key the whole sequence is scanned: when no layer bears
    the name the lookup raises ValueError, and when layers do, the position
    returned is that of the last of them. *)
Theorem get_layer_index_by_name {tensor : Type} (layers : list (Layer tensor))
    (k : string) :
  (Forall (fun layer => name layer <> k) layers ->
   get_layer_index layers (KStr k) = Raise ValueError)
  /\ (forall (pre post : list (Layer tensor)) (layer : Layer tensor),
        layers = pre ++ layer :: post ->
        name layer = k ->
        Forall (fun layer' => name layer' <> k) post ->
        get_layer_index layers (KStr k) = Ok (len pre)).
Proof.
  split.
  - intros Hnone. unfold get_layer_index, scan_names, len.
    rewrite range_of_nat. now rewrite scan_no_match.
  - intros pre post layer -> Hname Hpost.
    unfold get_layer_index, scan_names, len at 1.
    rewrite range_of_nat. now rewrite scan_last_match.
Qed.

Lemma get_layer_index_by_name_witness :
  get_layer_index Samples.net_dup (KStr "ghost") = Raise ValueError
  /\ get_layer_index Samples.net_dup (KStr "conv1") = Ok 2.
Proof.
  split.
  - apply (proj1 (get_layer_index_by_name Samples.net_dup "ghost")).
    repeat constructor; discriminate.
  - apply (proj2 (get_layer_index_by_name Samples.net_dup "conv1")
             [Samples.conv1; Samples.conv2] [Samples.pool] Samples.conv1_again).
    + reflexivity.
    + reflexivity.
    + repeat constructor; discriminate.
Defined.

(** ** Slice keys *)

Lemma distinct_NoDup (names : list string) : distinct names = true <-> NoDup names.
Proof.
  induction names as [|n rest IH]; cbn [distinct].
  - split; [constructor|reflexivity].
  - rewrite andb_true_iff, negb_true_iff, IH. split.
    + intros [Hfresh Hrest]. constructor; [|assumption].
      intros Hin. apply not_true_iff_false in Hfresh. apply Hfresh.
      apply existsb_exists. exists n. split; [assumption|apply String.eqb_refl].
    + intros Hnodup. inversion Hnodup as [|? ? Hfresh Hrest]; subst.
      split; [|assumption]. apply not_true_iff_false. intros Hex.
      apply existsb_exists in Hex as (m & Hin & Heq).
      apply String.eqb_eq in Heq. now subst m.
Qed.

(** What [get_item] does with the stretch a slice selects. *)
Lemma slice_result_wrap {tensor : Type} (sub : list (Layer tensor)) :
  (if 1 <? len sub then (let? model := Sequential sub in Ok (ISequential model))
   else Ok (IList sub))
  = slice_result sub.
Proof.
  destruct sub as [|layer [|layer' rest]]; try reflexivity.
  destruct (Z.ltb_spec 1 (len (layer :: layer' :: rest))) as [_|Hle].
  - unfold Sequential, slice_result.
    now destruct (distinct (map name (Sequential_layers (layer :: layer' :: rest)))).
  - unfold len in Hle. cbn [List.length] in Hle. lia.
Qed.

Lemma get_item_slice {tensor : Type} (layers : list (Layer tensor)) (start stop : bound) :
  get_item layers (KSlice start stop)
  = let? sub := sub_sequence layers start stop in slice_result sub.
Proof.
  unfold get_item, sub_sequence.
  destruct start, stop; cbn [bind_result];
    repeat match goal with
    | |- context [get_layer_index ?l ?k] => destruct (get_layer_index l k); cbn [bind_result]
    end;
    try reflexivity;
    match goal with
    | |- context [py_slice ?l ?a ?b] => destruct (py_slice l a b); cbn [bind_result]
    end;
    try reflexivity; apply slice_result_wrap.
Qed.

Lemma slice_result_short {tensor : Type} (sub : list (Layer tensor)) :
  len sub <= 1 -> slice_result sub = Ok (IList sub).
Proof.
  destruct sub as [|layer [|layer' rest]]; try reflexivity.
  unfold len. cbn [List.length]. lia.
Qed.

Lemma slice_result_long {tensor : Type} (sub : list (Layer tensor)) :
  1 < len sub ->
  slice_result sub
  = if distinct (map name (Sequential_layers sub)) then Ok (ISequential sub)
    else Raise ValueError.
Proof.
  destruct sub as [|layer [|layer' rest]]; try reflexivity;
    unfold len; cbn [List.length]; lia.
Qed.

Lemma slice_result_raise {tensor : Type} (sub : list (Layer tensor)) (e : exn) :
  slice_result sub = Raise e ->
  e = ValueError /\ 1 < len sub /\ ~ NoDup (map name (Sequential_layers sub)).
Proof.
  destruct (Z.le_gt_cases (len sub) 1) as [Hshort|Hlong].
  - rewrite slice_result_short by assumption. discriminate.
  - rewrite slice_result_long by lia.
    destruct (distinct (map name (Sequential_layers sub))) eqn:Hnames; [discriminate|].
    intros [= <-]. repeat split; [lia|].
    intros Hnodup. apply distinct_NoDup in Hnodup. congruence.
Qed.

(** The names Keras checks are among the names of the list. *)
Lemma Sequential_layers_NoDup {tensor : Type} (sub : list (Layer tensor)) :
  NoDup (map name sub) -> NoDup (map name (Sequential_layers sub)).
Proof.
  destruct sub as [|first rest]; cbn [Sequential_layers]; [trivial|].
  destruct (input_layer first); [|trivial].
  cbn [map]. intros Hnodup. now inversion Hnodup.
Qed.




(** C7.  In a slice key, a stop given by name resolves to the position after
    the named layer, so that a range by names [a:b] selects the layers from
    the one named [a] through the one named [b]; a stop given as an integer
    stays exclusive; an absent start is position 0 and an absent stop is the
    length of the sequence.  In each case [get_item] returns what it makes
    of exactly that stretch. *)
Theorem get_item_slice_bounds {tensor : Type} (layers : list (Layer tensor)) :
  (forall (a b : string) (i j : Z),
     get_layer_index layers (KStr a) = Ok i ->
     get_layer_index layers (KStr b) = Ok j ->
     i <= j ->
     exists sub layer_b,
       py_slice layers (BInt i) (BInt (j + 1)) = Ok sub
       /\ len sub = j - i + 1
       /\ py_index sub (j - i) = Ok layer_b
       /\ py_index layers j = Ok layer_b
       /\ name layer_b = b
       /\ get_item layers (KSlice (BStr a) (BStr b)) = slice_result sub
       /\ get_item layers (KSlice (BInt i) (BStr b)) = slice_result sub
       /\ get_item layers (KSlice (BInt i) (BInt (j + 1))) = slice_result sub)
  /\ (forall s e : Z,
        0 <= s -> s <= e -> e <= len layers ->
        exists sub,
          len sub = e - s
          /\ (forall i, 0 <= i < e - s -> py_index sub i = py_index layers (s + i))
          /\ get_item layers (KSlice (BInt s) (BInt e)) = slice_result sub)
  /\ (forall e : Z,
        0 <= e <= len layers ->
        get_item layers (KSlice BNone (BInt e))
        = slice_result (firstn (Z.to_nat e) layers))
  /\ (forall s : Z,
        0 <= s <= len layers ->
        get_item layers (KSlice (BInt s) BNone)
        = slice_result (skipn (Z.to_nat s) layers))
  /\ get_item layers (KSlice BNone BNone) = slice_result layers
  /\ (forall stop,
        get_item layers (KSlice BNone stop) = get_item layers (KSlice (BInt 0) stop))
  /\ (forall start,
        get_item layers (KSlice start BNone)
        = get_item layers (KSlice start (BInt (len layers)))).
Proof.
  pose proof (len_nonneg layers) as Hlen.
  assert (Hints : forall s e : Z,
             0 <= s <= len layers -> 0 <= e <= len layers ->
             get_item layers (KSlice (BInt s) (BInt e))
             = slice_result (firstn (Z.to_nat (e - s)) (skipn (Z.to_nat s) layers))).
  { intros s e Hs He. rewrite get_item_slice. unfold sub_sequence.
    cbn [bind_result]. now rewrite py_slice_inside by assumption. }
  assert (Hnostart : forall stop,
             get_item layers (KSlice BNone stop) = get_item layers (KSlice (BInt 0) stop)).
  { intros stop. rewrite !get_item_slice. unfold sub_sequence.
    destruct stop; cbn [bind_result]; try reflexivity;
      try (destruct (get_layer_index layers (KStr s)); cbn [bind_result]; try reflexivity);
      unfold py_slice, slice_bound; now rewrite (adjust_inside (len layers) 0) by lia. }
  assert (Hnostop : forall start,
             get_item layers (KSlice start BNone)
             = get_item layers (KSlice start (BInt (len layers)))).
  { intros start. rewrite !get_item_slice. unfold sub_sequence.
    destruct start; cbn [bind_result]; try reflexivity;
      try (destruct (get_layer_index layers (KStr s)); cbn [bind_result]; try reflexivity);
      unfold py_slice, slice_bound;
      now rewrite (adjust_inside (len layers) (len layers)) by lia. }
  split; [|split; [|split; [|split; [|split; [|split]]]]].
  - intros a b i j Hstart Hstop Hij.
    apply get_layer_index_name_sound in Hstart as Hi. destruct Hi as [Hi _].
    apply get_layer_index_name_sound in Hstop as Hj.
    destruct Hj as (Hj & layer_b & Hat & Hname).
    destruct (cut_at layers i j ltac:(lia) Hij ltac:(lia))
      as (pre & mid & layer & post & Hcut & Hpre & Hmid).
    assert (Hlayer : py_index layers j = Ok layer).
    { rewrite Hcut, app_assoc.
      replace j with (len (pre ++ mid)) by (rewrite len_app; lia).
      apply py_index_middle. }
    assert (layer_b = layer) as -> by congruence.
    assert (Hslice : py_slice layers (BInt i) (BInt (j + 1)) = Ok (mid ++ [layer])).
    { rewrite Hcut at 1.
      replace (pre ++ mid ++ layer :: post) with (pre ++ (mid ++ [layer]) ++ post)
        by (now rewrite <- app_assoc).
      rewrite <- Hpre.
      replace (j + 1) with (len pre + len (mid ++ [layer]))
        by (rewrite len_app; unfold len at 3; cbn [List.length]; lia).
      apply py_slice_middle. }
    exists (mid ++ [layer]), layer.
    repeat split; try assumption.
    + rewrite len_app. unfold len at 2. cbn [List.length]. lia.
    + rewrite <- Hmid. apply py_index_middle.
    + rewrite get_item_slice. unfold sub_sequence.
      rewrite Hstart, Hstop. cbn [bind_result]. now rewrite Hslice.
    + rewrite get_item_slice. unfold sub_sequence.
      rewrite Hstop. cbn [bind_result]. now rewrite Hslice.
    + rewrite get_item_slice. unfold sub_sequence.
      cbn [bind_result]. now rewrite Hslice.
  - intros s e Hs Hse He.
    exists (firstn (Z.to_nat (e - s)) (skipn (Z.to_nat s) layers)).
    repeat split.
    + unfold len in *. rewrite length_firstn, length_skipn. lia.
    + intros i Hi. rewrite !py_index_nonneg by lia.
      rewrite nth_error_firstn, nth_error_skipn.
      destruct (Nat.ltb_spec (Z.to_nat i) (Z.to_nat (e - s))); [|lia].
      now replace (Z.to_nat s + Z.to_nat i)%nat with (Z.to_nat (s + i)) by lia.
    + apply Hints; lia.
  - intros e He. rewrite Hnostart, Hints by lia.
    now rewrite Z.sub_0_r.
  - intros s Hs. rewrite Hnostop, Hints by lia.
    rewrite firstn_all2; [reflexivity|].
    rewrite length_skipn. unfold len. lia.
  - rewrite Hnostart, Hnostop, Hints by lia.
    rewrite Z.sub_0_r. unfold len. rewrite Nat2Z.id.
    cbn [Z.to_nat skipn]. now rewrite firstn_all.
  - exact Hnostart.
  - exact Hnostop.
Qed.

Lemma get_item_slice_bounds_witness :
  (exists sub layer_b,
     py_slice Samples.net3 (BInt 0) (BInt (1 + 1)) = Ok sub
     /\ len sub = 1 - 0 + 1
     /\ py_index sub (1 - 0) = Ok layer_b
     /\ py_index Samples.net3 1 = Ok layer_b
     /\ name layer_b = "conv2"%string
     /\ get_item Samples.net3 (KSlice (BStr "conv1") (BStr "conv2")) = slice_result sub
     /\ get_item Samples.net3 (KSlice (BInt 0) (BStr "conv2")) = slice_result sub
     /\ get_item Samples.net3 (KSlice (BInt 0) (BInt (1 + 1))) = slice_result sub)
  /\ (exists sub,
        len sub = 3 - 1
        /\ (forall i, 0 <= i < 3 - 1 -> py_index sub i = py_index Samples.net3 (1 + i))
        /\ get_item Samples.net3 (KSlice (BInt 1) (BInt 3)) = slice_result sub)
  /\ get_item Samples.net3 (KSlice BNone (BInt 2))
     = slice_result (firstn (Z.to_nat 2) Samples.net3)
  /\ get_item Samples.net3 (KSlice (BInt 1) BNone)
     = slice_result (skipn (Z.to_nat 1) Samples.net3)
  /\ get_item Samples.net3 (KSlice BNone BNone) = slice_result Samples.net3
  /\ get_item Samples.net3 (KSlice BNone (BStr "conv2"))
     = get_item Samples.net3 (KSlice (BInt 0) (BStr "conv2"))
  /\ get_item Samples.net3 (KSlice (BStr "conv2") BNone)
     = get_item Samples.net3 (KSlice (BStr "conv2") (BInt (len Samples.net3))).
Proof.
  destruct (get_item_slice_bounds Samples.net3)
    as (Hnames & Hints & Hnostart & Hnostop & Hwhole & Hdefault0 & Hdefaultn).
  split; [|split; [|split; [|split; [|split; [|split]]]]].
  - apply (Hnames "conv1"%string "conv2"%string 0 1); [reflexivity|reflexivity|lia].
  - apply (Hints 1 3); [lia|lia|vm_compute; discriminate].
  - apply (Hnostart 2). split; [lia|vm_compute; discriminate].
  - apply (Hnostop 1). split; [lia|vm_compute; discriminate].
  - exact Hwhole.
  - apply Hdefault0.
  - apply Hdefaultn.
Defined.

(** ** DetectorNet *)

Section Detector.

Context {tensor : Type}.
Implicit Types (stages preds : list (Layer tensor)) (xs : list tensor).

(** The branches still to run, with the ones already run split off. *)
Lemma DetectorNet_branches_from (x_todo : list tensor) :
  forall (s_done s_todo p_done p_todo : list (Layer tensor)) (x_done : list tensor)
         (nm : string) (outs : list (option tensor)) (log : list Z),
    List.length s_done = List.length x_done ->
    List.length p_done = List.length x_done ->
    List.length s_todo = List.length x_todo ->
    List.length p_todo = List.length x_todo ->
    DetectorNet_branches
      (DetectorNet_init (s_done ++ s_todo) (p_done ++ p_todo) nm)
      (x_done ++ x_todo)
      (map Z.of_nat (seq (List.length x_done) (List.length x_todo))) outs log
    = (Ok (outs ++ map Some (branch_outputs s_todo p_todo x_todo)),
       log ++ branch_log (len (s_done ++ s_todo))
                (List.length x_done) (List.length x_todo)).
Proof.
  induction x_todo as [|x x_todo IH];
    intros s_done s_todo p_done p_todo x_done nm outs log Hsd Hpd Hst Hpt.
  - destruct s_todo; [|discriminate]. destruct p_todo; [|discriminate].
    cbn. unfold ret. now rewrite !app_nil_r.
  - destruct s_todo as [|s s_todo]; [discriminate|].
    destruct p_todo as [|p p_todo]; [discriminate|].
    injection Hst as Hst. injection Hpt as Hpt.
    cbn [List.length seq map DetectorNet_branches DetectorNet_init
         detector_model input_layers model_layers].
    unfold bind at 1, lift at 1. fold (len x_done).
    rewrite py_index_middle.
    unfold bind at 1.
    replace ((s_done ++ s :: s_todo) ++ p_done ++ p :: p_todo)
      with (s_done ++ s :: (s_todo ++ p_done ++ p :: p_todo))
      by (now rewrite <- app_assoc).
    replace (len x_done) with (len s_done) by (unfold len; lia).
    rewrite call_layer_middle.
    unfold bind at 1, Powered_Model_call. cbn [model_layers].
    replace (s_done ++ s :: (s_todo ++ p_done ++ p :: p_todo))
      with (((s_done ++ s :: s_todo) ++ p_done) ++ p :: p_todo)
      by (now rewrite <- !app_assoc).
    replace (len s_done + len (s_done ++ s :: s_todo))
      with (len ((s_done ++ s :: s_todo) ++ p_done))
      by (rewrite (len_app _ p_done); unfold len; lia).
    rewrite indexable_call_single.
    specialize (IH (s_done ++ [s]) s_todo (p_done ++ [p]) p_todo (x_done ++ [x])
                  nm (outs ++ [Some (call p (call s x))])
                  ((log ++ [len s_done])
                   ++ [len ((s_done ++ s :: s_todo) ++ p_done)])).
    rewrite <- !app_assoc in IH. cbn [app] in IH.
    rewrite !length_app in IH. cbn [List.length] in IH.
    rewrite !Nat.add_1_r in IH.
    rewrite <- !app_assoc. cbn [app].
    rewrite IH by lia.
    unfold branch_outputs, branch_log.
    cbn [combine map seq flat_map app].
    replace (len s_done) with (Z.of_nat (List.length x_done)) by (unfold len; lia).
    replace (len (s_done ++ s :: s_todo ++ p_done))
      with (Z.of_nat (List.length x_done) + len (s_done ++ s :: s_todo));
      [reflexivity|].
    rewrite (app_assoc s_done (s :: s_todo) p_done : s_done ++ s :: s_todo ++ p_done = _).
    rewrite (len_app _ p_done). unfold len. lia.
Qed.

End Detector.

(** C6.  A detector built from input stages and as many predictors, called
    on as many inputs, returns for each branch, in branch order, what the
    predictor makes of what the input stage makes of the input; for branch
    [i] it invokes the stage at position [i] and then, through the partial
    call with start and last key [len(input_layers) + i], the one layer at
    that position. *)
Theorem DetectorNet_call_branches {tensor : Type} (stages preds : list (Layer tensor))
    (xs : list tensor) (nm : string) (training : bool) (log : list Z)
    (Hpreds : List.length preds = List.length stages)
    (Hxs : List.length xs = List.length stages) :
  DetectorNet_call (DetectorNet_init stages preds nm) xs training log
  = (Ok (map Some (branch_outputs stages preds xs)),
     log ++ branch_log (len stages) 0 (List.length stages)).
Proof.
  unfold DetectorNet_call, len at 1. rewrite range_of_nat.
  pose proof (DetectorNet_branches_from xs [] stages [] preds [] nm [] log) as Hrun.
  cbn [app List.length] in Hrun. rewrite Hrun by lia.
  now rewrite Hxs.
Qed.

Lemma DetectorNet_call_branches_witness :
  DetectorNet_call
    (DetectorNet_init [Samples.conv1; Samples.conv2] [Samples.pool; Samples.conv1_again]
       "DetectorNet")
    [10; 20] false []
  = (Ok [Some 8; Some 1600], [0; 2; 1; 3]).
Proof.
  apply (DetectorNet_call_branches [Samples.conv1; Samples.conv2]
           [Samples.pool; Samples.conv1_again] [10; 20] "DetectorNet" false []);
    reflexivity.
Defined.

(** ** BaseNet *)

(** C9.  For an architecture identifier that is none of the recognized
    aliases, [BaseNet] raises TypeError, the exception the code uses for an
    unsupported architecture, before anything is built: no pretrained model
    is loaded, no layer is created, no sequential model is initialised. *)
Theorem BaseNet_init_unsupported {tensor shape weights : Type}
    (VGG16 : bool -> string -> option shape -> list (Layer tensor))
    (MaxPool2D : Z -> Z -> string -> Layer tensor)
    (Conv2D : Z -> Z -> Z -> string -> Layer tensor)
    (get_weights : Layer tensor -> list weights)
    (set_weights : list weights -> Layer tensor -> Layer tensor)
    (flatten : weights -> weights)
    (random_choice : weights -> list Z -> weights)
    (architecture : string) (input_shape : shape) (nm : string)
    (log : list build_event)
    (Hunknown : ~ In architecture recognized) :
  BaseNet_init VGG16 MaxPool2D Conv2D get_weights set_weights flatten random_choice
    architecture input_shape nm log
  = (Raise TypeError, log).
Proof.
  unfold BaseNet_init.
  destruct (existsb (String.eqb architecture) recognized) eqn:Hknown; [|reflexivity].
  exfalso. apply Hunknown.
  apply existsb_exists in Hknown as (alias & Hin & Heq).
  apply String.eqb_eq in Heq. now subst alias.
Qed.

Lemma BaseNet_init_unsupported_witness :
  BaseNet_init Samples.VGG16 Samples.MaxPool2D Samples.Conv2D Samples.get_weights
    Samples.set_weights (fun w => w) Samples.random_choice
    "ResNet50" tt "BaseNet" []
  = (Raise TypeError, []).
Proof.
  apply (BaseNet_init_unsupported Samples.VGG16 Samples.MaxPool2D Samples.Conv2D
           Samples.get_weights Samples.set_weights (fun w => w) Samples.random_choice
           "ResNet50" tt "BaseNet" []).
  intros [H|[H|[H|[]]]]; discriminate H.
Defined.

(** A recognized alias does build: the pretrained layers without the
    heading input layer and without the last one, then the new pooling layer
    under the old one's name and the two new head layers. *)
Example BaseNet_init_recognized :
  let built := BaseNet_init Samples.VGG16 Samples.MaxPool2D Samples.Conv2D
                 Samples.get_weights Samples.set_weights (fun w => w)
                 Samples.random_choice "VGG-16" tt "BaseNet" [] in
  match fst built with
  | Ok model => map name (seq_layers model)
  | Raise _ => []
  end = ["conv1"; "conv2"; "pool"; "head_conv6"; "head_conv7"]%string
  /\ snd built = [LoadVGG16 false; LoadVGG16 true; NewLayer "pool";
                  NewLayer "head_conv6"; NewLayer "head_conv7";
                  InitSequential "BaseNet";
                  SetWeights "head_conv6"; SetWeights "head_conv7"].
Proof. split; reflexivity. Qed.

(** ** The operations on the sample networks *)

Example get_item_samples :
  get_item Samples.net3 (KInt 5) = Raise IndexError
  /\ get_item Samples.net3 (KStr "ghost") = Raise ValueError
  /\ get_item Samples.net3 (KInt (-1)) = Ok (ILayer Samples.pool)
  /\ get_item Samples.net3 (KInt (-5)) = Raise IndexError
  /\ get_item Samples.net3 (KStr "conv2") = Ok (ILayer Samples.conv2)
  /\ get_item Samples.net3 (KSlice BNone BNone) = Ok (ISequential Samples.net3)
  /\ get_item Samples.net_dup (KSlice BNone BNone) = Raise ValueError
  /\ get_item (Samples.input_1 :: Samples.net3) (KSlice BNone (BInt 2))
     = Ok (ISequential [Samples.input_1; Samples.conv1])
  /\ get_item Samples.net3 (KSlice (BInt 2) (BInt 1)) = Ok (IList [])
  /\ get_item Samples.net3 (KSlice BOther BNone) = Raise TypeError
  /\ get_item Samples.net3 KOther = Raise IndexError.
Proof. repeat split. Qed.

Example indexable_call_samples :
  indexable_call Samples.net3 7 None None [] = (Ok (Some 13), [0; 1; 2])
  /\ indexable_call Samples.net3 7 (Some (KStr "conv2")) None [] = (Ok (Some 11), [1; 2])
  /\ indexable_call Samples.net3 7 None (Some (KStr "conv2")) [] = (Ok (Some 16), [0; 1])
  /\ indexable_call Samples.net3 7 (Some (KInt 4)) (Some (KInt 1)) [] = (Raise IndexError, [])
  /\ indexable_call Samples.net3 7 None (Some (KInt (-1))) [] = (Ok None, [])
  /\ indexable_call Samples.net3 7 (Some KOther) None [] = (Raise TypeError, []).
Proof. repeat split. Qed.

(** * Further properties of the indexer *)

(** ** What a resolved pair of keys executes *)

Section Execution.

Context {tensor : Type}.
Implicit Types (layers pre mid post : list (Layer tensor)) (x : tensor).

Lemma firstn_skipn_middle {A : Type} (pre mid post : list A) :
  firstn (List.length mid) (skipn (List.length pre) (pre ++ mid ++ post)) = mid.
Proof.
  rewrite skipn_app, skipn_all, Nat.sub_diag. cbn [skipn app].
  rewrite <- (Nat.add_0_r (List.length mid)), firstn_app_2.
  cbn [firstn]. apply app_nil_r.
Qed.

(** A position obtained from a last key lies below the length. *)
Lemma resolved_below_len layers (default : Z) (k : option key) (l : Z) :
  default < len layers ->
  resolved layers default k = Ok l -> l < len layers.
Proof.
  intros Hdefault. destruct k as [[k|s|a b|]|]; cbn [resolved].
  - rewrite get_layer_index_int.
    destruct (Z.geb_spec k (len layers)); [discriminate|]. intros [= <-]. lia.
  - intros Hname. apply get_layer_index_name_sound in Hname. lia.
  - discriminate.
  - discriminate.
  - intros [= <-]. assumption.
Qed.

(** The loop started at a position that is not positive runs as from 0. *)
Lemma forward_start_nonpos layers (start last : Z) (ls : list Z) x
    (outputs : option tensor) (log : list Z) :
  start <= 0 -> Forall (fun l => 0 <= l) ls ->
  forward layers start last ls x outputs log
  = forward layers 0 last ls x outputs log.
Proof.
  intros Hstart Hls. revert x outputs log.
  induction Hls as [|l ls Hl _ IH]; intros x outputs log; cbn [forward];
    [reflexivity|].
  destruct (Z.ltb_spec l start) as [Hlt|_]; [lia|].
  destruct (Z.ltb_spec l 0) as [Hlt|_]; [lia|].
  unfold bind. destruct (call_layer layers l x log) as [[out|e] log']; [|reflexivity].
  destruct (l =? last); [reflexivity|apply IH].
Qed.

Lemma range_nonneg (n : Z) : Forall (fun l => 0 <= l) (range n).
Proof.
  apply Forall_forall. intros l Hin. unfold range in Hin.
  apply in_map_iff in Hin as (i & <- & _). lia.
Qed.

(** The loop of [indexable_call] for a last position inside the list: from
    the first non-negative position at or above [start] through [last]. *)
Lemma forward_positions layers (start last : Z) x (log : list Z) :
  last < len layers ->
  (last < Z.max 0 start ->
   forward layers start last (range (last + 1)) x None log = (Ok None, log))
  /\ (Z.max 0 start <= last ->
      forward layers start last (range (last + 1)) x None log
      = (Ok (Some (chain (firstn (Z.to_nat (last + 1 - Z.max 0 start))
                            (skipn (Z.to_nat (Z.max 0 start)) layers)) x)),
         log ++ span (Z.max 0 start) last)).
Proof.
  intros Hlast. split.
  - intros Hempty. destruct (Z.lt_ge_cases last 0) as [Hneg|Hpos].
    + now rewrite range_nonpos by lia.
    + apply forward_nothing. lia.
  - intros Hrun.
    destruct (cut_at layers (Z.max 0 start) last ltac:(lia) Hrun Hlast)
      as (pre & mid & a & post & -> & Hpre & Hmid).
    assert (Hcount : List.length (mid ++ [a]) = Z.to_nat (last + 1 - Z.max 0 start))
      by (rewrite length_app; unfold len in Hmid; cbn [List.length]; lia).
    assert (Hfirst : Z.to_nat (Z.max 0 start) = List.length pre)
      by (unfold len in Hpre; lia).
    rewrite <- Hcount, Hfirst.
    replace (pre ++ mid ++ a :: post) with (pre ++ (mid ++ [a]) ++ post)
      by (now rewrite <- app_assoc).
    rewrite firstn_skipn_middle.
    replace (last + 1) with (Z.of_nat (List.length pre + List.length (mid ++ [a])))
      by (rewrite Hcount; unfold len in Hpre; lia).
    rewrite range_of_nat, seq_app, map_app, forward_skip; cbn [Nat.add].
    + pose proof (forward_run (mid ++ [a]) ltac:(now destruct mid)
                    pre post start x None log) as Hloop.
      replace (len pre + len (mid ++ [a]) - 1) with last in Hloop
        by (unfold len at 2; rewrite Hcount; lia).
      rewrite Hloop by lia. unfold span.
      rewrite span_seq. fold (len pre). rewrite Hpre.
      now replace (Z.to_nat (last - Z.max 0 start + 1))
        with (List.length (mid ++ [a])) by lia.
    + apply Forall_forall. intros l Hin.
      apply in_map_iff in Hin as (i & <- & Hin). apply in_seq in Hin.
      unfold len in Hpre. lia.
Qed.

(** [indexable_call] once both keys are resolved. *)
Lemma indexable_call_resolved layers x (start_layer last_layer : option key)
    (start last : Z) (log : list Z) :
  resolved layers 0 start_layer = Ok start ->
  resolved layers (len layers - 1) last_layer = Ok last ->
  indexable_call layers x start_layer last_layer log
  = forward layers start last (range (last + 1)) x None log.
Proof.
  intros Hstart Hlast. unfold indexable_call, bind, lift, ret.
  destruct start_layer, last_layer; cbn [resolved] in Hstart, Hlast;
    try rewrite Hstart; try rewrite Hlast;
    try (injection Hstart as <-); try (injection Hlast as <-); reflexivity.
Qed.

(** [indexable_call] when a key fails to resolve. *)
Lemma indexable_call_unresolved layers x (start_layer last_layer : option key)
    (e : exn) (log : list Z) :
  (resolved layers 0 start_layer = Raise e \/
   (exists start, resolved layers 0 start_layer = Ok start)
   /\ resolved layers (len layers - 1) last_layer = Raise e) ->
  indexable_call layers x start_layer last_layer log = (Raise e, log).
Proof.
  unfold indexable_call, bind, lift, ret.
  intros [Hstart|[[start Hstart] Hlast]].
  - destruct start_layer; cbn [resolved] in Hstart; [|discriminate].
    now rewrite Hstart.
  - destruct start_layer, last_layer; cbn [resolved] in Hstart, Hlast;
      try discriminate; try rewrite Hstart; now rewrite Hlast.
Qed.

End Execution.

(** X1.  Once its two keys resolve to [start] and [last], whatever their
    kind, [indexable_call] runs the layers from [max(0, start)] through
    [last]: it returns [None] and invokes nothing when that range is empty,
    and otherwise returns what chaining [layers[max(0, start) : last + 1]]
    makes of the input, invoking exactly those positions in order. *)
Theorem indexable_call_by_resolved_keys {tensor : Type} (layers : list (Layer tensor))
    (x : tensor) (start_layer last_layer : option key) (start last : Z)
    (log : list Z)
    (Hstart : resolved layers 0 start_layer = Ok start)
    (Hlast : resolved layers (len layers - 1) last_layer = Ok last) :
  (last < Z.max 0 start ->
   indexable_call layers x start_layer last_layer log = (Ok None, log))
  /\ (Z.max 0 start <= last ->
      exists sub,
        py_slice layers (BInt (Z.max 0 start)) (BInt (last + 1)) = Ok sub
        /\ indexable_call layers x start_layer last_layer log
           = (Ok (Some (chain sub x)), log ++ span (Z.max 0 start) last)).
Proof.
  pose proof (resolved_below_len layers (len layers - 1) _ _ ltac:(lia) Hlast)
        as Hbelow.
  rewrite (indexable_call_resolved layers x _ _ _ _ log Hstart Hlast).
  destruct (forward_positions layers start last x log Hbelow) as [Hnone Hsome].
  split; [exact Hnone|].
  intros Hrun. eexists. split; [apply py_slice_inside; lia|].
  now rewrite Hsome by assumption.
Qed.

Lemma indexable_call_by_resolved_keys_witness :
  exists sub,
    py_slice Samples.net3 (BInt (Z.max 0 (-2))) (BInt (1 + 1)) = Ok sub
    /\ indexable_call Samples.net3 7 (Some (KInt (-2))) (Some (KStr "conv2")) []
       = (Ok (Some (chain sub 7)), [] ++ span (Z.max 0 (-2)) 1).
Proof.
  apply (proj2 (indexable_call_by_resolved_keys Samples.net3 7
                  (Some (KInt (-2))) (Some (KStr "conv2")) (-2) 1 []
                  eq_refl eq_refl)).
  vm_compute. discriminate.
Defined.

(** X2.  [indexable_call] raises exactly when a key fails to resolve: the
    exception is the one of the start key if that one fails, else the one of
    the last key, and no layer has been invoked.  When both keys resolve the
    call returns. *)
Theorem indexable_call_raises_on_keys_only {tensor : Type}
    (layers : list (Layer tensor)) (x : tensor)
    (start_layer last_layer : option key) (e : exn) (log : list Z) :
  fst (indexable_call layers x start_layer last_layer log) = Raise e
  <-> (resolved layers 0 start_layer = Raise e
       \/ (exists start, resolved layers 0 start_layer = Ok start)
          /\ resolved layers (len layers - 1) last_layer = Raise e).
Proof.
  split.
  - destruct (resolved layers 0 start_layer) as [start|e1] eqn:Hstart.
    + destruct (resolved layers (len layers - 1) last_layer) as [last|e2] eqn:Hlast.
      * pose proof (resolved_below_len layers (len layers - 1) _ _ ltac:(lia) Hlast)
        as Hbelow.
        rewrite (indexable_call_resolved layers x _ _ _ _ log Hstart Hlast).
        destruct (forward_positions layers start last x log Hbelow) as [Hnone Hsome].
        destruct (Z.lt_ge_cases last (Z.max 0 start)) as [Hempty|Hrun].
        -- rewrite Hnone by assumption. discriminate.
        -- rewrite Hsome by assumption. discriminate.
      * rewrite (indexable_call_unresolved layers x start_layer last_layer e2 log)
          by (right; split; [now exists start|assumption]).
        cbn [fst]. intros [= ->]. right. split; [now exists start|reflexivity].
    + rewrite (indexable_call_unresolved layers x start_layer last_layer e1 log)
        by now left.
      cbn [fst]. intros [= ->]. now left.
  - intros Hkeys. now rewrite (indexable_call_unresolved layers x _ _ e log Hkeys).
Qed.

(** X3.  Whatever the keys, a call of [indexable_call] only appends to the
    log of invocations, and what it appends is strictly ascending and inside
    the sequence: no layer is invoked twice, none out of order, and when the
    call raises none at all. *)
Theorem indexable_call_invocations {tensor : Type} (layers : list (Layer tensor))
    (x : tensor) (start_layer last_layer : option key) (log : list Z) :
  exists invoked,
    snd (indexable_call layers x start_layer last_layer log) = log ++ invoked
    /\ StronglySorted Z.lt invoked
    /\ Forall (fun l => 0 <= l < len layers) invoked
    /\ (raises (fst (indexable_call layers x start_layer last_layer log)) ->
        invoked = []).
Proof.
  destruct (resolved layers 0 start_layer) as [start|e1] eqn:Hstart.
  - destruct (resolved layers (len layers - 1) last_layer) as [last|e2] eqn:Hlast.
    + pose proof (resolved_below_len layers (len layers - 1) _ _ ltac:(lia) Hlast)
        as Hbelow.
      rewrite (indexable_call_resolved layers x _ _ _ _ log Hstart Hlast).
      destruct (forward_positions layers start last x log Hbelow) as [Hnone Hsome].
      destruct (Z.lt_ge_cases last (Z.max 0 start)) as [Hempty|Hrun].
      * exists []. rewrite Hnone by assumption. cbn [snd].
        repeat split; [now rewrite app_nil_r|constructor|constructor].
      * exists (span (Z.max 0 start) last). rewrite Hsome by assumption.
        cbn [snd fst]. repeat split.
        -- apply span_ascending.
        -- eapply Forall_impl; [|apply span_bounds]. cbn. intros l Hl. lia.
        -- intros [e He]. discriminate He.
    + exists [].
      rewrite (indexable_call_unresolved layers x start_layer last_layer e2 log)
        by (right; split; [now exists start|assumption]).
      cbn [snd]. repeat split; [now rewrite app_nil_r|constructor|constructor].
  - exists [].
    rewrite (indexable_call_unresolved layers x start_layer last_layer e1 log)
      by now left.
    cbn [snd]. repeat split; [now rewrite app_nil_r|constructor|constructor].
Qed.

(** X4.  Called without keys, a sequence with at least one layer applies all
    its layers in order, first to last, and returns the last one's output. *)
Theorem indexable_call_whole {tensor : Type} (layers : list (Layer tensor))
    (x : tensor) (log : list Z) (Hlayers : layers <> []) :
  indexable_call layers x None None log
  = (Ok (Some (chain layers x)), log ++ range (len layers)).
Proof.
  assert (Hpos : 0 < len layers)
    by (destruct layers; [congruence|unfold len; cbn [List.length]; lia]).
  rewrite (indexable_call_resolved layers x None None 0 (len layers - 1) log)
    by reflexivity.
  destruct (forward_positions layers 0 (len layers - 1) x log ltac:(lia))
    as [_ Hsome].
  rewrite Hsome by lia.
  replace (Z.to_nat (len layers - 1 + 1 - Z.max 0 0)) with (List.length layers)
    by (unfold len; lia).
  cbn [Z.max Z.compare Z.to_nat skipn]. rewrite firstn_all.
  unfold span, range.
  replace (Z.to_nat (len layers - 1 - 0 + 1)) with (Z.to_nat (len layers)) by lia.
  reflexivity.
Qed.

Lemma indexable_call_whole_witness :
  indexable_call Samples.net3 7 None None []
  = (Ok (Some (chain Samples.net3 7)), [] ++ range (len Samples.net3)).
Proof.
  apply (indexable_call_whole Samples.net3 7 []). discriminate.
Defined.

Lemma indexable_call_raises_on_keys_only_witness :
  fst (indexable_call Samples.net3 7 (Some (KInt 0)) (Some (KStr "ghost")) [])
  = Raise ValueError.
Proof.
  apply (proj2 (indexable_call_raises_on_keys_only Samples.net3 7
                  (Some (KInt 0)) (Some (KStr "ghost")) ValueError [])).
  right. split; [now exists 0|reflexivity].
Defined.

Lemma indexable_call_invocations_witness :
  exists invoked,
    snd (indexable_call Samples.net3 7 (Some (KInt 1)) None [5]) = [5] ++ invoked
    /\ StronglySorted Z.lt invoked
    /\ Forall (fun l => 0 <= l < len Samples.net3) invoked
    /\ (raises (fst (indexable_call Samples.net3 7 (Some (KInt 1)) None [5])) ->
        invoked = []).
Proof.
  apply (indexable_call_invocations Samples.net3 7 (Some (KInt 1)) None [5]).
Defined.

(** ** Negative keys, single items, consecutive calls *)

Section Composition.

Context {tensor : Type}.
Implicit Types (layers : list (Layer tensor)) (x : tensor).

(** The call between two positions of the sequence. *)
Lemma indexable_call_at_positions layers x (k1 k2 : Z) (log : list Z) :
  0 <= k1 -> k1 <= k2 -> k2 < len layers ->
  indexable_call layers x (Some (KInt k1)) (Some (KInt k2)) log
  = (Ok (Some (chain (firstn (Z.to_nat (k2 + 1 - k1))
                        (skipn (Z.to_nat k1) layers)) x)),
     log ++ span k1 k2).
Proof.
  intros Hk1 Hk12 Hk2.
  rewrite (indexable_call_resolved layers x _ _ k1 k2 log)
    by (cbn [resolved]; apply get_layer_index_position; lia).
  destruct (forward_positions layers k1 k2 x log Hk2) as [_ Hsome].
  rewrite Hsome by lia. now rewrite Z.max_r by lia.
Qed.

Lemma firstn_plus {A : Type} (a b : nat) (xs : list A) :
  firstn (a + b) xs = firstn a xs ++ firstn b (skipn a xs).
Proof.
  revert xs. induction a as [|a IH]; intros [|y xs]; cbn [Nat.add firstn skipn app];
    try reflexivity.
  - now rewrite firstn_nil.
  - now rewrite IH.
Qed.

Lemma span_shift (c : Z) (a n : nat) :
  map (fun i => c + Z.of_nat i) (seq a n)
  = map (fun i => c + Z.of_nat a + Z.of_nat i) (seq 0 n).
Proof.
  revert a. induction n as [|n IH]; intros a; [reflexivity|].
  cbn [seq map]. f_equal; [lia|].
  rewrite (IH (S a)), <- (seq_shift n 0), map_map.
  apply map_ext. intros i. lia.
Qed.

Lemma span_app (k1 k2 k3 : Z) :
  k1 <= k2 + 1 -> k2 <= k3 ->
  span k1 k2 ++ span (k2 + 1) k3 = span k1 k3.
Proof.
  intros H12 H23. unfold span.
  replace (Z.to_nat (k3 - k1 + 1))
    with (Z.to_nat (k2 - k1 + 1) + Z.to_nat (k3 - (k2 + 1) + 1))%nat by lia.
  rewrite seq_app, map_app. f_equal. cbn [Nat.add].
  rewrite (span_shift k1 (Z.to_nat (k2 - k1 + 1))).
  apply map_ext. intros i. lia.
Qed.

End Composition.

(** X5.  A negative int key is not counted from the end by [indexable_call].
    As last key it makes the call return [None] with no layer invoked,
    whatever the start key resolves to; as start key it acts as an absent
    start key. *)
Theorem indexable_call_negative_keys {tensor : Type} (layers : list (Layer tensor))
    (x : tensor) (k : Z) (Hk : k < 0) :
  (forall (start_layer : option key) (start : Z) (log : list Z),
     resolved layers 0 start_layer = Ok start ->
     indexable_call layers x start_layer (Some (KInt k)) log = (Ok None, log))
  /\ (forall (last_layer : option key) (log : list Z),
        indexable_call layers x (Some (KInt k)) last_layer log
        = indexable_call layers x None last_layer log).
Proof.
  pose proof (len_nonneg layers) as Hlen.
  assert (Hkey : get_layer_index layers (KInt k) = Ok k)
    by (apply get_layer_index_position; lia).
  split.
  - intros start_layer start log Hstart.
    rewrite (indexable_call_resolved layers x start_layer (Some (KInt k))
               start k log Hstart Hkey).
    now rewrite range_nonpos by lia.
  - intros last_layer log.
    destruct (resolved layers (len layers - 1) last_layer) as [last|e] eqn:Hlast.
    + rewrite (indexable_call_resolved layers x (Some (KInt k)) last_layer
                 k last log Hkey Hlast).
      rewrite (indexable_call_resolved layers x None _ 0 last log eq_refl Hlast).
      apply forward_start_nonpos; [lia|apply range_nonneg].
    + rewrite !(indexable_call_unresolved layers x _ last_layer e log);
        try reflexivity; right; (split; [|assumption]).
      * now exists 0.
      * now exists k.
Qed.

Lemma indexable_call_negative_keys_witness :
  indexable_call Samples.net3 7 (Some (KStr "conv1")) (Some (KInt (-1))) [] = (Ok None, [])
  /\ indexable_call Samples.net3 7 (Some (KInt (-1))) (Some (KInt 1)) []
     = indexable_call Samples.net3 7 None (Some (KInt 1)) [].
Proof.
  destruct (indexable_call_negative_keys Samples.net3 7 (-1) eq_refl)
    as [Hlast Hstart].
  split.
  - apply (Hlast (Some (KStr "conv1")) 0 []). reflexivity.
  - apply Hstart.
Defined.

(** X6.  Two consecutive partial calls compose: running positions
    [k1 .. k2] and then, on the output, positions [k2+1 .. k3] gives the
    result and the invocations of the single call over [k1 .. k3]. *)
Theorem indexable_call_compose {tensor : Type} (layers : list (Layer tensor))
    (x : tensor) (k1 k2 k3 : Z) (log : list Z)
    (Hk1 : 0 <= k1) (Hk12 : k1 <= k2) (Hk23 : k2 < k3) (Hk3 : k3 < len layers) :
  exists (y : tensor) (log' : list Z),
    indexable_call layers x (Some (KInt k1)) (Some (KInt k2)) log
    = (Ok (Some y), log')
    /\ indexable_call layers y (Some (KInt (k2 + 1))) (Some (KInt k3)) log'
       = indexable_call layers x (Some (KInt k1)) (Some (KInt k3)) log.
Proof.
  rewrite (indexable_call_at_positions layers x k1 k2 log) by lia.
  rewrite (indexable_call_at_positions layers x k1 k3 log) by lia.
  do 2 eexists. split; [reflexivity|].
  rewrite indexable_call_at_positions by lia.
  rewrite <- app_assoc, span_app by lia.
  do 3 f_equal.
  replace (Z.to_nat (k3 + 1 - k1))
    with (Z.to_nat (k2 + 1 - k1) + Z.to_nat (k3 + 1 - (k2 + 1)))%nat by lia.
  rewrite firstn_plus, skipn_skipn. unfold chain. rewrite fold_left_app.
  now replace (Z.to_nat (k2 + 1 - k1) + Z.to_nat k1)%nat
    with (Z.to_nat (k2 + 1)) by lia.
Qed.

Lemma indexable_call_compose_witness :
  exists (y : Z) (log' : list Z),
    indexable_call Samples.net_dup 7 (Some (KInt 0)) (Some (KInt 1)) [] = (Ok (Some y), log')
    /\ indexable_call Samples.net_dup y (Some (KInt (1 + 1))) (Some (KInt 3)) log'
       = indexable_call Samples.net_dup 7 (Some (KInt 0)) (Some (KInt 3)) [].
Proof.
  apply (indexable_call_compose Samples.net_dup 7 0 1 3 []); [lia|lia|lia|reflexivity].
Defined.

(** ** Items and calls *)

(** X7.  For a key that resolves to a non-negative position, the call with
    that key as both start and last invokes one layer, the one [get_item]
    returns for the key, and returns that layer's output. *)
Theorem indexable_call_single_item {tensor : Type} (layers : list (Layer tensor))
    (x : tensor) (k : key) (j : Z) (log : list Z)
    (Hkey : get_layer_index layers k = Ok j) (Hj : 0 <= j) :
  exists layer,
    get_item layers k = Ok (ILayer layer)
    /\ indexable_call layers x (Some k) (Some k) log
       = (Ok (Some (call layer x)), log ++ [j]).
Proof.
  assert (Hbelow : j < len layers)
    by (apply (resolved_below_len layers (len layers - 1) (Some k)); [lia|exact Hkey]).
  destruct (cut_at layers j j Hj ltac:(lia) Hbelow)
    as (pre & mid & layer & post & Hcut & Hpre & Hmid).
  destruct mid; [|unfold len in Hmid; cbn [List.length] in Hmid; lia].
  cbn [app] in Hcut.
  assert (Hat : py_index layers j = Ok layer)
    by (rewrite Hcut, <- Hpre; apply py_index_middle).
  exists layer. split.
  - destruct k; try (cbn [get_layer_index] in Hkey; discriminate Hkey);
      unfold get_item; rewrite Hkey; cbn [bind_result]; now rewrite Hat.
  - rewrite (indexable_call_resolved layers x (Some k) (Some k) j j log Hkey Hkey).
    destruct (forward_positions layers j j x log Hbelow) as [_ Hsome].
    rewrite Hsome by lia. rewrite Z.max_r by lia.
    replace (Z.to_nat (j + 1 - j)) with (List.length [layer]) by (cbn; lia).
    replace (Z.to_nat j) with (List.length pre) by (unfold len in Hpre; lia).
    rewrite Hcut at 1.
    change (pre ++ layer :: post) with (pre ++ [layer] ++ post).
    rewrite (firstn_skipn_middle pre [layer] post).
    unfold span. replace (Z.to_nat (j - j + 1)) with 1%nat by lia.
    cbn. now rewrite Z.add_0_r.
Qed.

Lemma indexable_call_single_item_witness :
  exists layer,
    get_item Samples.net_dup (KStr "conv1") = Ok (ILayer layer)
    /\ indexable_call Samples.net_dup 7 (Some (KStr "conv1")) (Some (KStr "conv1")) []
       = (Ok (Some (call layer 7)), [] ++ [2]).
Proof.
  apply (indexable_call_single_item Samples.net_dup 7 (KStr "conv1") 2 []);
    [reflexivity|lia].
Defined.

(** X8.  Slicing and partial calls agree.  When start and stop resolve to
    positions [i < j], and the layers from [i] through [j] bear different
    names and do not begin with an [InputLayer], the slice from [i] to the
    stop, by two names or by the integers [i] and [j + 1], is a [Sequential]
    of those layers whose call on an input returns what the partial call
    from [i] through [j] returns. *)
Theorem slice_call_agrees_with_partial_call {tensor : Type}
    (layers : list (Layer tensor)) (x : tensor) (i j : Z) (log : list Z)
    (sub : list (Layer tensor))
    (Hi : 0 <= i) (Hij : i < j) (Hj : j < len layers)
    (Hsub : py_slice layers (BInt i) (BInt (j + 1)) = Ok sub)
    (Hnames : NoDup (map name sub))
    (Hfirst : Sequential_layers sub = sub) :
  get_item layers (KSlice (BInt i) (BInt (j + 1))) = Ok (ISequential sub)
  /\ indexable_call layers x (Some (KInt i)) (Some (KInt j)) log
     = (Ok (Some (Sequential_call sub x)), log ++ span i j)
  /\ forall a b : string,
       get_layer_index layers (KStr a) = Ok i ->
       get_layer_index layers (KStr b) = Ok j ->
       get_item layers (KSlice (BStr a) (BStr b)) = Ok (ISequential sub)
       /\ indexable_call layers x (Some (KStr a)) (Some (KStr b)) log
          = (Ok (Some (Sequential_call sub x)), log ++ span i j).
Proof.
  assert (Hstretch : sub = firstn (Z.to_nat (j + 1 - i)) (skipn (Z.to_nat i) layers)).
  { rewrite py_slice_inside in Hsub by lia. now injection Hsub as <-. }
  assert (Hmany : 1 < len sub).
  { rewrite Hstretch. unfold len in *.
    rewrite length_firstn, length_skipn. lia. }
  assert (Hitem : slice_result sub = Ok (ISequential sub)).
  { rewrite slice_result_long by assumption. rewrite Hfirst.
    apply distinct_NoDup in Hnames. now rewrite Hnames. }
  assert (Hrun : forall ks kl,
             get_layer_index layers ks = Ok i -> get_layer_index layers kl = Ok j ->
             indexable_call layers x (Some ks) (Some kl) log
             = (Ok (Some (Sequential_call sub x)), log ++ span i j)).
  { intros ks kl Hks Hkl.
    rewrite (indexable_call_resolved layers x (Some ks) (Some kl) i j log Hks Hkl).
    destruct (forward_positions layers i j x log Hj) as [_ Hsome].
    rewrite Hsome by lia. unfold Sequential_call.
    now rewrite Hfirst, Hstretch, Z.max_r by lia. }
  split; [|split].
  - rewrite get_item_slice. unfold sub_sequence. cbn [bind_result].
    now rewrite Hsub.
  - apply Hrun; apply get_layer_index_position; lia.
  - intros a b Ha Hb. split; [|now apply Hrun].
    rewrite get_item_slice. unfold sub_sequence.
    rewrite Ha, Hb. cbn [bind_result]. now rewrite Hsub.
Qed.

Lemma slice_call_agrees_with_partial_call_witness :
  get_item Samples.net3 (KSlice (BInt 0) (BInt (2 + 1))) = Ok (ISequential Samples.net3)
  /\ indexable_call Samples.net3 7 (Some (KInt 0)) (Some (KInt 2)) []
     = (Ok (Some (Sequential_call Samples.net3 7)), [] ++ span 0 2)
  /\ forall a b : string,
       get_layer_index Samples.net3 (KStr a) = Ok 0 ->
       get_layer_index Samples.net3 (KStr b) = Ok 2 ->
       get_item Samples.net3 (KSlice (BStr a) (BStr b)) = Ok (ISequential Samples.net3)
       /\ indexable_call Samples.net3 7 (Some (KStr a)) (Some (KStr b)) []
          = (Ok (Some (Sequential_call Samples.net3 7)), [] ++ span 0 2).
Proof.
  apply (slice_call_agrees_with_partial_call Samples.net3 7 0 2 [] Samples.net3);
    [lia|lia|reflexivity|reflexivity| |reflexivity].
  repeat constructor; cbn; intuition discriminate.
Defined.

(** ** Looking layers up *)

Section Lookup.

Context {tensor : Type}.
Implicit Types (layers pre post : list (Layer tensor)) (layer : Layer tensor).

(** Once the scan holds a position it holds one to its end. *)
Lemma scan_keeps_position (k : string) layers :
  forall (a : nat) (i : Z),
  exists j,
    fold_left (scan_step k)
      (combine (map Z.of_nat (seq a (List.length layers))) layers) (Some i) = Some j.
Proof.
  induction layers as [|layer rest IH]; intros a i; cbn.
  - now exists i.
  - destruct (String.eqb (name layer) k); apply IH.
Qed.

Lemma scan_finds (k : string) layers :
  Exists (fun layer => name layer = k) layers ->
  forall (a : nat) (index : option Z),
  exists j,
    fold_left (scan_step k)
      (combine (map Z.of_nat (seq a (List.length layers))) layers) index = Some j.
Proof.
  induction 1 as [layer rest Hname|layer rest _ IH]; intros a index; cbn.
  - apply String.eqb_eq in Hname. rewrite Hname. apply scan_keeps_position.
  - apply IH.
Qed.

Lemma get_layer_index_name_raise layers (k : string) (e : exn) :
  get_layer_index layers (KStr k) = Raise e ->
  e = ValueError /\ Forall (fun layer => name layer <> k) layers.
Proof.
  unfold get_layer_index, scan_names, len. rewrite range_of_nat.
  destruct (fold_left _ _ _) as [j|] eqn:Hscan; [discriminate|].
  intros [= <-]. split; [reflexivity|].
  apply Forall_forall. intros layer Hin Hname.
  destruct (scan_finds k layers) with (a := 0%nat) (index := @None Z) as [j Hj].
  - apply Exists_exists. now exists layer.
  - congruence.
Qed.

Lemma adjust_range (n i : Z) : 0 <= n -> 0 <= adjust n i <= n.
Proof. intros Hn. unfold adjust. destruct (Z.ltb_spec i 0); lia. Qed.

Lemma slice_bound_plain (n default : Z) (b : bound) :
  0 <= n -> 0 <= default <= n -> plain_bound b = true ->
  exists v, slice_bound n default b = Ok v /\ 0 <= v <= n.
Proof.
  intros Hn Hdefault Hplain. destruct b; try discriminate; cbn [slice_bound].
  - now exists default.
  - exists (adjust n i). split; [reflexivity|now apply adjust_range].
Qed.

End Lookup.

(** X9.  Looking a name up fails, with ValueError and nothing else, exactly
    when no layer bears the name; when it succeeds the position returned is
    one of the sequence, the layer there bears the name, and [get_item] with
    the name returns that layer. *)
Theorem get_layer_index_name_outcome {tensor : Type} (layers : list (Layer tensor))
    (k : string) :
  (get_layer_index layers (KStr k) = Raise ValueError
   <-> Forall (fun layer => name layer <> k) layers)
  /\ (forall e, get_layer_index layers (KStr k) = Raise e -> e = ValueError)
  /\ (forall j,
        get_layer_index layers (KStr k) = Ok j ->
        0 <= j < len layers
        /\ exists layer,
             py_index layers j = Ok layer
             /\ name layer = k
             /\ get_item layers (KStr k) = Ok (ILayer layer)).
Proof.
  split; [split|split].
  - intros Hraise. now apply get_layer_index_name_raise in Hraise.
  - intros Hnone. unfold get_layer_index, scan_names, len.
    rewrite range_of_nat. now rewrite scan_no_match.
  - intros e Hraise. now apply get_layer_index_name_raise in Hraise.
  - intros j Hfound.
    destruct (get_layer_index_name_sound layers k j Hfound)
      as (Hj & layer & Hat & Hname).
    split; [exact Hj|]. exists layer. repeat split; try assumption.
    unfold get_item. rewrite Hfound. cbn [bind_result]. now rewrite Hat.
Qed.

Lemma get_layer_index_name_outcome_witness :
  get_layer_index Samples.net3 (KStr "fc9") = Raise ValueError
  /\ (0 <= 1 < len Samples.net3
      /\ exists layer,
           py_index Samples.net3 1 = Ok layer
           /\ name layer = "conv2"%string
           /\ get_item Samples.net3 (KStr "conv2") = Ok (ILayer layer)).
Proof.
  split.
  - apply (proj2 (proj1 (get_layer_index_name_outcome Samples.net3 "fc9"))).
    repeat constructor; discriminate.
  - apply (proj2 (proj2 (get_layer_index_name_outcome Samples.net3 "conv2")) 1).
    reflexivity.
Defined.

(** X10.  In a sequence whose layer names are all different, the name of the
    layer at a position resolves back to that position, and [get_item] with
    that name returns that very layer. *)
Theorem get_layer_index_unique_names {tensor : Type} (layers : list (Layer tensor))
    (i : nat) (layer : Layer tensor)
    (Hunique : NoDup (map name layers))
    (Hat : nth_error layers i = Some layer) :
  get_layer_index layers (KStr (name layer)) = Ok (Z.of_nat i)
  /\ get_item layers (KStr (name layer)) = Ok (ILayer layer).
Proof.
  apply nth_error_split in Hat as (pre & post & -> & <-).
  assert (Hpost : Forall (fun layer' => name layer' <> name layer) post).
  { rewrite map_app in Hunique. cbn [map] in Hunique.
    apply NoDup_remove_2 in Hunique.
    apply Forall_forall. intros layer' Hin Heq. apply Hunique.
    apply in_or_app. right. rewrite <- Heq. now apply in_map. }
  assert (Hindex : get_layer_index (pre ++ layer :: post) (KStr (name layer))
                   = Ok (len pre)).
  { unfold get_layer_index, scan_names, len at 1.
    rewrite range_of_nat. now rewrite scan_last_match. }
  split; [exact Hindex|].
  unfold get_item. rewrite Hindex. cbn [bind_result].
  now rewrite py_index_middle.
Qed.

Lemma get_layer_index_unique_names_witness :
  get_layer_index Samples.net3 (KStr (name Samples.pool)) = Ok (Z.of_nat 2)
  /\ get_item Samples.net3 (KStr (name Samples.pool)) = Ok (ILayer Samples.pool).
Proof.
  apply (get_layer_index_unique_names Samples.net3 2 Samples.pool); [|reflexivity].
  repeat constructor; cbn; intuition discriminate.
Defined.

(** X11.  [get_item] with an int key counts a negative key from the end:
    for a position [i] of the sequence the keys [i] and [i - len] both return
    the layer at [i]. *)
Theorem get_item_negative_index {tensor : Type} (layers : list (Layer tensor))
    (i : Z) (Hi : 0 <= i) (Hlen : i < len layers) :
  exists layer,
    nth_error layers (Z.to_nat i) = Some layer
    /\ get_item layers (KInt i) = Ok (ILayer layer)
    /\ get_item layers (KInt (i - len layers)) = Ok (ILayer layer).
Proof.
  destruct (nth_error layers (Z.to_nat i)) as [layer|] eqn:Hat.
  - exists layer. split; [reflexivity|].
    unfold get_item.
    rewrite !get_layer_index_position by lia. cbn [bind_result].
    assert (Hpos : py_index layers i = Ok layer)
      by (rewrite <- (Z2Nat.id i) by lia; now apply py_index_nth).
    split; [now rewrite Hpos|].
    assert (Hwrap : py_index layers (i - len layers) = py_index layers i).
    { unfold py_index.
      destruct (Z.ltb_spec (i - len layers) 0) as [_|Hge]; [|lia].
      destruct (Z.ltb_spec i 0) as [Hneg|_]; [lia|].
      now replace (i - len layers + len layers) with i by lia. }
    now rewrite Hwrap, Hpos.
  - apply nth_error_None in Hat. unfold len in Hlen. lia.
Qed.

Lemma get_item_negative_index_witness :
  exists layer,
    nth_error Samples.net3 (Z.to_nat 2) = Some layer
    /\ get_item Samples.net3 (KInt 2) = Ok (ILayer layer)
    /\ get_item Samples.net3 (KInt (2 - len Samples.net3)) = Ok (ILayer layer).
Proof.
  apply (get_item_negative_index Samples.net3 2); [lia|reflexivity].
Defined.

(** X12.  [get_item] with an int key raises exactly when the key lies
    outside [-len .. len - 1], and what it raises then is IndexError. *)
Theorem get_item_index_out_of_range {tensor : Type} (layers : list (Layer tensor))
    (k : Z) :
  (raises (get_item layers (KInt k)) <-> k < - len layers \/ len layers <= k)
  /\ (forall e, get_item layers (KInt k) = Raise e -> e = IndexError).
Proof.
  pose proof (len_nonneg layers) as Hlen.
  assert (Hcases :
    (k < - len layers \/ len layers <= k) /\ get_item layers (KInt k) = Raise IndexError
    \/ ~ (k < - len layers \/ len layers <= k)
       /\ exists layer, get_item layers (KInt k) = Ok (ILayer layer)).
  { unfold get_item. rewrite get_layer_index_int.
    destruct (Z.geb_spec k (len layers)) as [Hge|Hlt]; cbn [bind_result].
    - left. split; [lia|reflexivity].
    - unfold py_index.
      destruct (Z.ltb_spec k 0) as [Hneg|Hpos].
      + destruct (Z.ltb_spec (k + len layers) 0) as [Hlow|Hin]; cbn [orb].
        * left. split; [lia|reflexivity].
        * destruct (Z.leb_spec (len layers) (k + len layers)); [lia|].
          destruct (nth_error layers (Z.to_nat (k + len layers))) as [layer|] eqn:Hat.
          -- right. split; [lia|now exists layer].
          -- apply nth_error_None in Hat. unfold len in *. lia.
      + destruct (Z.ltb_spec k 0); [lia|].
        destruct (Z.leb_spec (len layers) k); [lia|]. cbn [orb].
        destruct (nth_error layers (Z.to_nat k)) as [layer|] eqn:Hat.
        * right. split; [lia|now exists layer].
        * apply nth_error_None in Hat. unfold len in *. lia. }
  split; [split|].
  - intros [e He]. destruct Hcases as [[Hout _]|[_ [layer Hok]]]; [exact Hout|congruence].
  - intros Hout. destruct Hcases as [[_ Hraise]|[Hin _]]; [|contradiction].
    now exists IndexError.
  - intros e He. destruct Hcases as [[_ Hraise]|[_ [layer Hok]]]; congruence.
Qed.

Lemma get_item_index_out_of_range_witness :
  raises (get_item Samples.net3 (KInt (-4)))
  /\ raises (get_item Samples.net3 (KInt 3)).
Proof.
  split.
  - apply (proj2 (proj1 (get_item_index_out_of_range Samples.net3 (-4)))).
    left. reflexivity.
  - apply (proj2 (proj1 (get_item_index_out_of_range Samples.net3 3))).
    right. vm_compute. discriminate.
Defined.

(** ** Slices out of range, inverted, ill-typed *)

(** The ways resolving and slicing can fail for a slice key. *)
Lemma sub_sequence_raise {tensor : Type} (layers : list (Layer tensor))
    (start stop : bound) (e : exn) :
  sub_sequence layers start stop = Raise e ->
  (e = ValueError
   /\ exists s, (start = BStr s \/ stop = BStr s)
                /\ Forall (fun layer => name layer <> s) layers)
  \/ (e = TypeError /\ (start = BOther \/ stop = BOther)).
Proof.
  intros Hraise. unfold sub_sequence in Hraise.
  assert (Hname : forall s e',
             get_layer_index layers (KStr s) = Raise e' ->
             e' = ValueError /\ Forall (fun layer => name layer <> s) layers)
    by (intros s e'; apply get_layer_index_name_raise).
  destruct start as [|s|a|], stop as [|t|b|]; cbn [bind_result] in Hraise;
    repeat match type of Hraise with
    | context [get_layer_index layers (KStr ?n)] =>
        let Hn := fresh "Hn" in
        destruct (get_layer_index layers (KStr n)) eqn:Hn;
        [cbn [bind_result] in Hraise
        |cbn [bind_result] in Hraise; injection Hraise as <-;
         left; destruct (Hname _ _ Hn) as [-> Hnone]; split; [reflexivity|];
         exists n; split; [auto|exact Hnone]]
    end;
    try (unfold py_slice, slice_bound in Hraise; cbn [bind_result] in Hraise;
         first [discriminate Hraise
               |injection Hraise as <-; right; split; [reflexivity|auto]]).
Qed.

(** X13.  A slice key whose bounds are each absent or an integer never
    fails for being out of range, however far out the bounds are: it selects
    a contiguous stretch of the sequence, possibly empty, and [get_item]
    makes of that stretch a list or a [Sequential].  The one way it can
    raise is the ValueError of [Sequential] when more than one layer is
    selected and two of them share a name; it never raises on a sequence
    whose layer names are all different. *)
Theorem get_item_slice_clamps {tensor : Type} (layers : list (Layer tensor))
    (start stop : bound)
    (Hstart : plain_bound start = true) (Hstop : plain_bound stop = true) :
  exists pre sub post,
    layers = pre ++ sub ++ post
    /\ sub_sequence layers start stop = Ok sub
    /\ get_item layers (KSlice start stop) = slice_result sub
    /\ (forall e,
          get_item layers (KSlice start stop) = Raise e ->
          e = ValueError /\ 1 < len sub
          /\ ~ NoDup (map name (Sequential_layers sub)))
    /\ (NoDup (map name layers) ->
        get_item layers (KSlice start stop) = Ok (IList sub)
        \/ get_item layers (KSlice start stop) = Ok (ISequential sub)).
Proof.
  pose proof (len_nonneg layers) as Hlen.
  destruct (slice_bound_plain (len layers) 0 start Hlen ltac:(lia) Hstart)
    as (s & Hs & Hsrange).
  destruct (slice_bound_plain (len layers) (len layers) stop Hlen ltac:(lia) Hstop)
    as (e & He & Herange).
  set (rest := skipn (Z.to_nat s) layers).
  set (sub := firstn (Z.to_nat (e - s)) rest).
  exists (firstn (Z.to_nat s) layers), sub, (skipn (Z.to_nat (e - s)) rest).
  assert (Hcut : layers = firstn (Z.to_nat s) layers ++ sub
                          ++ skipn (Z.to_nat (e - s)) rest)
    by (unfold sub, rest; now rewrite !firstn_skipn).
  assert (Hsub : sub_sequence layers start stop = Ok sub).
  { unfold sub_sequence.
    destruct start, stop; try discriminate; cbn [bind_result];
      unfold py_slice; rewrite Hs, He; reflexivity. }
  assert (Hitem : get_item layers (KSlice start stop) = slice_result sub)
    by (now rewrite get_item_slice, Hsub).
  split; [exact Hcut|]. split; [exact Hsub|]. split; [exact Hitem|]. split.
  - intros e' Hraise. apply slice_result_raise. now rewrite <- Hitem.
  - intros Hunique. rewrite Hitem.
    destruct (Z.le_gt_cases (len sub) 1) as [Hshort|Hlong].
    + left. now apply slice_result_short.
    + right. rewrite slice_result_long by lia.
      assert (Hnames : NoDup (map name (Sequential_layers sub))).
      { apply Sequential_layers_NoDup.
        rewrite Hcut, !map_app in Hunique.
        apply NoDup_app_remove_l in Hunique. now apply NoDup_app_remove_r in Hunique. }
      apply distinct_NoDup in Hnames. now rewrite Hnames.
Qed.

Lemma get_item_slice_clamps_witness :
  exists pre sub post,
    Samples.net3 = pre ++ sub ++ post
    /\ sub_sequence Samples.net3 (BInt (-7)) (BInt 9) = Ok sub
    /\ get_item Samples.net3 (KSlice (BInt (-7)) (BInt 9)) = slice_result sub
    /\ (forall e,
          get_item Samples.net3 (KSlice (BInt (-7)) (BInt 9)) = Raise e ->
          e = ValueError /\ 1 < len sub
          /\ ~ NoDup (map name (Sequential_layers sub)))
    /\ (NoDup (map name Samples.net3) ->
        get_item Samples.net3 (KSlice (BInt (-7)) (BInt 9)) = Ok (IList sub)
        \/ get_item Samples.net3 (KSlice (BInt (-7)) (BInt 9)) = Ok (ISequential sub)).
Proof.
  apply (get_item_slice_clamps Samples.net3 (BInt (-7)) (BInt 9)); reflexivity.
Defined.

(** X14.  A slice key never raises IndexError.  It raises ValueError only
    when one of its bounds is a name no layer bears, or when it selects more
    than one layer and two of those [Sequential] lists share a name; it
    raises TypeError only when one of its bounds is a value list slicing
    rejects. *)
Theorem get_item_slice_errors {tensor : Type} (layers : list (Layer tensor))
    (start stop : bound) (e : exn)
    (Hraise : get_item layers (KSlice start stop) = Raise e) :
  (e = ValueError
   /\ ((exists s, (start = BStr s \/ stop = BStr s)
                  /\ Forall (fun layer => name layer <> s) layers)
       \/ (exists sub, sub_sequence layers start stop = Ok sub
                       /\ 1 < len sub
                       /\ ~ NoDup (map name (Sequential_layers sub)))))
  \/ (e = TypeError /\ (start = BOther \/ stop = BOther)).
Proof.
  rewrite get_item_slice in Hraise.
  destruct (sub_sequence layers start stop) as [sub|e'] eqn:Hsub;
    cbn [bind_result] in Hraise.
  - apply slice_result_raise in Hraise as (-> & Hmany & Hnames).
    left. split; [reflexivity|]. right. now exists sub.
  - injection Hraise as ->.
    apply sub_sequence_raise in Hsub as [[-> Hname]|[-> Htype]].
    + left. split; [reflexivity|now left].
    + right. now split.
Qed.

Lemma get_item_slice_errors_witness :
  ((ValueError = ValueError
    /\ ((exists s, (BInt 0 = BStr s \/ BStr "ghost" = BStr s)
                   /\ Forall (fun layer => name layer <> s) Samples.net3)
        \/ (exists sub, sub_sequence Samples.net3 (BInt 0) (BStr "ghost") = Ok sub
                        /\ 1 < len sub
                        /\ ~ NoDup (map name (Sequential_layers sub)))))
   \/ (ValueError = TypeError /\ (BInt 0 = BOther \/ BStr "ghost" = BOther)))
  /\ ((ValueError = ValueError
       /\ ((exists s, (BInt 0 = BStr s \/ BInt 3 = BStr s)
                      /\ Forall (fun layer => name layer <> s) Samples.net_dup)
           \/ (exists sub, sub_sequence Samples.net_dup (BInt 0) (BInt 3) = Ok sub
                           /\ 1 < len sub
                           /\ ~ NoDup (map name (Sequential_layers sub)))))
      \/ (ValueError = TypeError /\ (BInt 0 = BOther \/ BInt 3 = BOther))).
Proof.
  split.
  - apply (get_item_slice_errors Samples.net3 (BInt 0) (BStr "ghost") ValueError).
    reflexivity.
  - apply (get_item_slice_errors Samples.net_dup (BInt 0) (BInt 3) ValueError).
    reflexivity.
Defined.

(** X15.  A slice whose stop does not lie after its start is empty, and
    [get_item] returns the empty list for it, not an error and not a
    [Sequential]: so for int bounds [0 <= stop <= start], and so for two
    names when the layer named by the stop comes before the one named by the
    start. *)
Theorem get_item_slice_inverted {tensor : Type} (layers : list (Layer tensor))
    (s e : Z) (He : 0 <= e) (Hes : e <= s) :
  get_item layers (KSlice (BInt s) (BInt e)) = Ok (IList [])
  /\ (forall a b : string,
        get_layer_index layers (KStr a) = Ok s ->
        get_layer_index layers (KStr b) = Ok (e - 1) ->
        get_item layers (KSlice (BStr a) (BStr b)) = Ok (IList [])).
Proof.
  assert (Hints : get_item layers (KSlice (BInt s) (BInt e)) = Ok (IList [])).
  { rewrite get_item_slice. unfold sub_sequence, py_slice, slice_bound.
    cbn [bind_result].
    replace (Z.to_nat (adjust (len layers) e - adjust (len layers) s)) with 0%nat
      by (unfold adjust; destruct (Z.ltb_spec e 0), (Z.ltb_spec s 0); lia).
    reflexivity. }
  split; [exact Hints|].
  intros a b Ha Hb.
  rewrite get_item_slice in *. unfold sub_sequence in *.
  rewrite Ha, Hb. cbn [bind_result] in *.
  now replace (e - 1 + 1) with e by lia.
Qed.

Lemma get_item_slice_inverted_witness :
  get_item Samples.net3 (KSlice (BInt 2) (BInt 1)) = Ok (IList [])
  /\ (forall a b : string,
        get_layer_index Samples.net3 (KStr a) = Ok 2 ->
        get_layer_index Samples.net3 (KStr b) = Ok (1 - 1) ->
        get_item Samples.net3 (KSlice (BStr a) (BStr b)) = Ok (IList [])).
Proof.
  apply (get_item_slice_inverted Samples.net3 2 1); lia.
Defined.

(** ** DetectorNet on fewer or more inputs than branches *)

Section DetectorInputs.

Context {tensor : Type}.
Implicit Types (stages preds : list (Layer tensor)) (xs : list tensor).

(** The loop over two runs of branch indices is the loop over the first
    followed, unless that raised, by the loop over the second. *)
Lemma DetectorNet_branches_app (self : DetectorNet tensor) xs (is1 is2 : list Z) :
  forall (outs : list (option tensor)) (log : list Z),
    DetectorNet_branches self xs (is1 ++ is2) outs log
    = match DetectorNet_branches self xs is1 outs log with
      | (Ok outs', log') => DetectorNet_branches self xs is2 outs' log'
      | (Raise e, log') => (Raise e, log')
      end.
Proof.
  induction is1 as [|i is1 IH]; intros outs log; cbn [app DetectorNet_branches];
    [reflexivity|].
  unfold bind.
  destruct (lift (py_index xs i) log) as [[x|e] log1]; [|reflexivity].
  destruct (call_layer _ i x log1) as [[y|e] log2]; [|reflexivity].
  destruct (Powered_Model_call _ y false _ _ log2) as [[out|e] log3]; [|reflexivity].
  apply IH.
Qed.

(** The first branches of a detector, run on the first inputs. *)
Lemma DetectorNet_branches_prefix (x_todo : list tensor) :
  forall (s_done s_todo p_done p_todo : list (Layer tensor))
         (x_done x_extra : list tensor)
         (nm : string) (outs : list (option tensor)) (log : list Z),
    List.length s_done = List.length x_done ->
    List.length p_done = List.length x_done ->
    (List.length x_todo <= List.length s_todo)%nat ->
    (List.length x_todo <= List.length p_todo)%nat ->
    DetectorNet_branches
      (DetectorNet_init (s_done ++ s_todo) (p_done ++ p_todo) nm)
      (x_done ++ x_todo ++ x_extra)
      (map Z.of_nat (seq (List.length x_done) (List.length x_todo))) outs log
    = (Ok (outs ++ map Some (branch_outputs s_todo p_todo x_todo)),
       log ++ branch_log (len (s_done ++ s_todo))
                (List.length x_done) (List.length x_todo)).
Proof.
  induction x_todo as [|x x_todo IH];
    intros s_done s_todo p_done p_todo x_done x_extra nm outs log Hsd Hpd Hst Hpt.
  - unfold branch_outputs. rewrite combine_nil. cbn. unfold ret.
    now rewrite !app_nil_r.
  - destruct s_todo as [|s s_todo]; [cbn in Hst; lia|].
    destruct p_todo as [|p p_todo]; [cbn in Hpt; lia|].
    cbn [List.length] in Hst, Hpt.
    cbn [List.length seq map DetectorNet_branches DetectorNet_init
         detector_model input_layers model_layers].
    unfold bind at 1, lift at 1. fold (len x_done).
    change (x_done ++ (x :: x_todo) ++ x_extra)
      with (x_done ++ x :: (x_todo ++ x_extra)).
    rewrite py_index_middle.
    unfold bind at 1.
    replace ((s_done ++ s :: s_todo) ++ p_done ++ p :: p_todo)
      with (s_done ++ s :: (s_todo ++ p_done ++ p :: p_todo))
      by (now rewrite <- app_assoc).
    replace (len x_done) with (len s_done) by (unfold len; lia).
    rewrite call_layer_middle.
    unfold bind at 1, Powered_Model_call. cbn [model_layers].
    replace (s_done ++ s :: (s_todo ++ p_done ++ p :: p_todo))
      with (((s_done ++ s :: s_todo) ++ p_done) ++ p :: p_todo)
      by (now rewrite <- !app_assoc).
    replace (len s_done + len (s_done ++ s :: s_todo))
      with (len ((s_done ++ s :: s_todo) ++ p_done))
      by (rewrite (len_app _ p_done); unfold len; lia).
    rewrite indexable_call_single.
    specialize (IH (s_done ++ [s]) s_todo (p_done ++ [p]) p_todo (x_done ++ [x])
                  x_extra nm (outs ++ [Some (call p (call s x))])
                  ((log ++ [len s_done])
                   ++ [len ((s_done ++ s :: s_todo) ++ p_done)])).
    rewrite <- !app_assoc in IH. cbn [app] in IH.
    rewrite !length_app in IH. cbn [List.length] in IH.
    rewrite !Nat.add_1_r in IH.
    rewrite <- !app_assoc. cbn [app].
    rewrite IH by lia.
    unfold branch_outputs, branch_log.
    cbn [combine map seq flat_map app].
    replace (len s_done) with (Z.of_nat (List.length x_done)) by (unfold len; lia).
    replace (len (s_done ++ s :: s_todo ++ p_done))
      with (Z.of_nat (List.length x_done) + len (s_done ++ s :: s_todo));
      [reflexivity|].
    rewrite (app_assoc s_done (s :: s_todo) p_done : s_done ++ s :: s_todo ++ p_done = _).
    rewrite (len_app _ p_done). unfold len. lia.
Qed.

End DetectorInputs.

(** X16.  Called on no more inputs than it has branches, a detector runs
    only the branches that have an input: it returns one output per input,
    in order, each the predictor applied to what the input stage makes of
    the input, and invokes for branch [i] the positions [i] and
    [len(input_layers) + i] and no other. *)
Theorem DetectorNet_call_fewer_inputs {tensor : Type} (stages preds : list (Layer tensor))
    (xs : list tensor) (nm : string) (training : bool) (log : list Z)
    (Hpreds : List.length preds = List.length stages)
    (Hxs : (List.length xs <= List.length stages)%nat) :
  DetectorNet_call (DetectorNet_init stages preds nm) xs training log
  = (Ok (map Some (branch_outputs stages preds xs)),
     log ++ branch_log (len stages) 0 (List.length xs))
  /\ List.length (branch_outputs stages preds xs) = List.length xs.
Proof.
  split.
  - unfold DetectorNet_call, len at 1. rewrite range_of_nat.
    pose proof (DetectorNet_branches_prefix xs [] stages [] preds [] [] nm [] log)
      as Hrun.
    cbn [app List.length] in Hrun. rewrite app_nil_r in Hrun.
    apply Hrun; lia.
  - unfold branch_outputs. rewrite length_map, !length_combine. lia.
Qed.

Lemma DetectorNet_call_fewer_inputs_witness :
  DetectorNet_call
    (DetectorNet_init [Samples.conv1; Samples.conv2] [Samples.pool; Samples.conv1_again]
       "DetectorNet")
    [10] false []
  = (Ok (map Some (branch_outputs [Samples.conv1; Samples.conv2]
                     [Samples.pool; Samples.conv1_again] [10])),
     [] ++ branch_log (len [Samples.conv1; Samples.conv2]) 0 (List.length [10]))
  /\ List.length (branch_outputs [Samples.conv1; Samples.conv2]
                    [Samples.pool; Samples.conv1_again] [10])
     = List.length [10].
Proof.
  apply (DetectorNet_call_fewer_inputs [Samples.conv1; Samples.conv2]
           [Samples.pool; Samples.conv1_again] [10] "DetectorNet" false []);
    [reflexivity|cbn; lia].
Defined.

(** X17.  Called on more inputs than it has branches, a detector raises
    IndexError, but only after it has run every branch and, when it has any,
    applied its first predictor (the layer at position [len(input_layers)])
    to the first input in excess. *)
Theorem DetectorNet_call_extra_input {tensor : Type} (stages preds : list (Layer tensor))
    (xs : list tensor) (nm : string) (training : bool) (log : list Z)
    (Hpreds : List.length preds = List.length stages)
    (Hxs : (List.length stages < List.length xs)%nat) :
  DetectorNet_call (DetectorNet_init stages preds nm) xs training log
  = (Raise IndexError,
     log ++ branch_log (len stages) 0 (List.length stages)
         ++ match stages with
            | [] => []
            | _ :: _ => [len stages]
            end).
Proof.
  pose proof (firstn_skipn (List.length stages) xs) as Hcut.
  destruct (skipn (List.length stages) xs) as [|x xr] eqn:Hrest.
  { apply (f_equal (@List.length tensor)) in Hrest.
    rewrite length_skipn in Hrest. cbn in Hrest. lia. }
  set (xa := firstn (List.length stages) xs) in *.
  assert (Hxa : List.length xa = List.length stages)
    by (unfold xa; rewrite length_firstn; lia).
  unfold DetectorNet_call, len at 1. rewrite range_of_nat, <- Hcut.
  rewrite length_app, Hxa. cbn [List.length].
  rewrite seq_app, map_app, DetectorNet_branches_app. cbn [Nat.add seq map].
  pose proof (DetectorNet_branches_prefix xa [] stages [] preds [] (x :: xr)
                nm [] log) as Hrun.
  cbn [app List.length] in Hrun. rewrite Hxa in Hrun.
  rewrite Hrun by lia.
  cbn [DetectorNet_branches DetectorNet_init detector_model input_layers model_layers].
  unfold bind at 1, lift at 1.
  replace (Z.of_nat (List.length stages)) with (len xa) by (unfold len; lia).
  rewrite py_index_middle.
  replace (len xa) with (len stages) by (unfold len; lia).
  destruct stages as [|s st].
  - destruct preds; [|discriminate]. cbn. now rewrite !app_nil_r.
  - destruct preds as [|p pr]; [discriminate|].
    unfold bind at 1. rewrite call_layer_middle.
    unfold bind at 1, Powered_Model_call, indexable_call, bind, lift.
    cbn [model_layers]. rewrite get_layer_index_int.
    destruct (Z.geb_spec (len (s :: st) + len (s :: st))
                (len ((s :: st) ++ p :: pr))) as [_|Hlt].
    + now rewrite <- app_assoc.
    + rewrite len_app in Hlt. unfold len in Hlt. lia.
Qed.

Lemma DetectorNet_call_extra_input_witness :
  DetectorNet_call
    (DetectorNet_init [Samples.conv1; Samples.conv2] [Samples.pool; Samples.conv1_again]
       "DetectorNet")
    [10; 20; 30] false []
  = (Raise IndexError, [] ++ [0; 2; 1; 3] ++ [2]).
Proof.
  apply (DetectorNet_call_extra_input [Samples.conv1; Samples.conv2]
           [Samples.pool; Samples.conv1_again] [10; 20; 30] "DetectorNet" false []);
    [reflexivity|cbn; lia].
Defined.

(** ** BaseNet on a recognized architecture *)

(** Indexing, updating and slicing counted from the end of a list. *)
Lemma py_index_back {A : Type} (pre post : list A) (a : A) :
  py_index (pre ++ a :: post) (- (len post + 1)) = Ok a.
Proof.
  pose proof (len_nonneg post) as Hpost. pose proof (len_nonneg pre) as Hpre.
  unfold py_index.
  destruct (Z.ltb_spec (- (len post + 1)) 0) as [_|Hge]; [|lia].
  replace (- (len post + 1) + len (pre ++ a :: post)) with (len pre)
    by (rewrite len_app; unfold len; cbn [List.length]; lia).
  destruct (Z.ltb_spec (len pre) 0) as [Hneg|_]; [lia|].
  destruct (Z.leb_spec (len (pre ++ a :: post)) (len pre)) as [Hle|_].
  { rewrite len_app in Hle. unfold len in Hle. cbn [List.length] in Hle. lia. }
  cbn [orb]. unfold len. rewrite Nat2Z.id, nth_error_app2 by lia.
  now rewrite Nat.sub_diag.
Qed.

Lemma py_update_back {A : Type} (pre post : list A) (a : A) (f : A -> A) :
  py_update (pre ++ a :: post) (- (len post + 1)) f = Ok (pre ++ f a :: post).
Proof.
  pose proof (len_nonneg post) as Hpost.
  unfold py_update. rewrite py_index_back. cbn [bind_result].
  destruct (Z.ltb_spec (- (len post + 1)) 0) as [_|Hge]; [|lia].
  replace (Z.to_nat (- (len post + 1) + len (pre ++ a :: post)))
    with (List.length pre + 0)%nat
    by (rewrite len_app; unfold len; cbn [List.length]; lia).
  rewrite firstn_app_2. cbn [firstn]. rewrite app_nil_r, Nat.add_0_r.
  do 2 f_equal.
  change (S (List.length pre)) with (1 + List.length pre)%nat.
  rewrite <- skipn_skipn, skipn_app, skipn_all, Nat.sub_diag. reflexivity.
Qed.

Lemma py_slice_front {A : Type} (pre post : list A) :
  post <> [] ->
  py_slice (pre ++ post) (BInt 0) (BInt (- len post)) = Ok pre.
Proof.
  intros Hpost.
  assert (0 < len post)
    by (destruct post; [congruence|unfold len; cbn [List.length]; lia]).
  pose proof (len_nonneg pre).
  unfold py_slice, slice_bound, adjust. cbn [bind_result].
  destruct (Z.ltb_spec 0 0); [lia|].
  destruct (Z.ltb_spec (- len post) 0); [|lia].
  rewrite len_app.
  replace (Z.to_nat (Z.max 0 (- len post + (len pre + len post))
                     - Z.min 0 (len pre + len post)))
    with (List.length pre + 0)%nat by (unfold len in *; lia).
  replace (Z.to_nat (Z.min 0 (len pre + len post))) with 0%nat by lia.
  cbn [skipn]. rewrite firstn_app_2. cbn [firstn]. now rewrite app_nil_r.
Qed.

Lemma py_slice_back {A : Type} (pre post : list A) :
  post <> [] ->
  py_slice (pre ++ post) (BInt (- len post)) BNone = Ok post.
Proof.
  intros Hpost.
  assert (0 < len post)
    by (destruct post; [congruence|unfold len; cbn [List.length]; lia]).
  pose proof (len_nonneg pre).
  unfold py_slice, slice_bound, adjust. cbn [bind_result].
  destruct (Z.ltb_spec (- len post) 0); [|lia].
  rewrite len_app.
  replace (Z.to_nat (Z.max 0 (- len post + (len pre + len post))))
    with (List.length pre) by (unfold len in *; lia).
  rewrite skipn_app, skipn_all, Nat.sub_diag. cbn [skipn app].
  rewrite firstn_all2; [reflexivity|]. unfold len in *. lia.
Qed.

(** X18.  For a recognized alias, when the pretrained model without top
    lists an [InputLayer], feature layers and a last layer, and the new
    layers' names clash neither with the kept feature layers' nor with each
    other, [BaseNet] builds, in this order: the pretrained model without
    top, the one with top, a pooling layer named after the last pretrained
    layer, the two head convolutions, the sequential model, and the two
    weight transplants.  The layers of the model are the pretrained feature
    layers, without the [InputLayer] and without the last layer, followed by
    the new pooling layer and the two convolutions, the first carrying
    weights sampled from the first of the last three layers of the model
    with top, the second from the second; the model lists one layer more
    than the pretrained model without top. *)
Theorem BaseNet_init_builds {tensor shape weights : Type}
    (VGG16 : bool -> string -> option shape -> list (Layer tensor))
    (MaxPool2D : Z -> Z -> string -> Layer tensor)
    (Conv2D : Z -> Z -> Z -> string -> Layer tensor)
    (get_weights : Layer tensor -> list weights)
    (set_weights : list weights -> Layer tensor -> Layer tensor)
    (flatten : weights -> weights)
    (random_choice : weights -> list Z -> weights)
    (architecture : string) (input_shape : shape) (nm : string)
    (log : list build_event)
    (feats front : list (Layer tensor)) (input old_pool fc6 fc7 out : Layer tensor)
    (w6 b6 w7 b7 : weights)
    (Hknown : In architecture recognized)
    (Harch : VGG16 false BASE_WEIGHTS (Some input_shape)
             = input :: feats ++ [old_pool])
    (Hinput : input_layer input = true)
    (Htop : VGG16 true BASE_WEIGHTS None = front ++ [fc6; fc7; out])
    (Hfc6 : get_weights fc6 = [w6; b6])
    (Hfc7 : get_weights fc7 = [w7; b7])
    (Hnames : NoDup (map name (feats ++ [MaxPool2D 3 1 (name old_pool);
                                         Conv2D 1024 3 6 "head_conv6"%string;
                                         Conv2D 1024 1 1 "head_conv7"%string]))) :
  let conv6 :=
    set_weights [random_choice (flatten w6) [3; 3; 512; 1024]; random_choice b6 [1024]]
      (Conv2D 1024 3 6 "head_conv6"%string) in
  let conv7 :=
    set_weights [random_choice (flatten w7) [1; 1; 1024; 1024]; random_choice b7 [1024]]
      (Conv2D 1024 1 1 "head_conv7"%string) in
  let model :=
    mkSequential (feats ++ [MaxPool2D 3 1 (name old_pool); conv6; conv7]) nm in
  BaseNet_init VGG16 MaxPool2D Conv2D get_weights set_weights flatten random_choice
    architecture input_shape nm log
  = (Ok model,
     log ++ [LoadVGG16 false; LoadVGG16 true; NewLayer (name old_pool);
             NewLayer "head_conv6"; NewLayer "head_conv7"; InitSequential nm;
             SetWeights "head_conv6"; SetWeights "head_conv7"])
  /\ Powered_Sequential_len tensor model
     = len (VGG16 false BASE_WEIGHTS (Some input_shape)) + 1.
Proof.
  intros conv6 conv7 model. split.
  - unfold BaseNet_init.
    assert (Hmember : existsb (String.eqb architecture) recognized = true)
      by (apply existsb_exists; exists architecture; split;
          [assumption|apply String.eqb_refl]).
    rewrite Hmember, Harch, Htop.
    unfold bind, emit, lift, ret.
    change (input :: feats ++ [old_pool]) with ((input :: feats) ++ [old_pool]).
    change (BInt (-1)) with (BInt (- len [old_pool])).
    rewrite py_slice_front by discriminate.
    change (BInt (-3)) with (BInt (- len [fc6; fc7; out])).
    rewrite py_slice_back by discriminate.
    change (-1) with (- (len (@nil (Layer tensor)) + 1)).
    rewrite py_index_back.
    set (pool' := MaxPool2D 3 1 (name old_pool)) in *.
    set (c6 := Conv2D 1024 3 6 "head_conv6"%string) in *.
    set (c7 := Conv2D 1024 1 1 "head_conv7"%string) in *.
    assert (Hself : Powered_Sequential_init
                      ((((input :: feats) ++ [pool']) ++ [c6]) ++ [c7]) nm
                    = Ok (mkSequential (feats ++ [pool'; c6; c7]) nm)).
    { unfold Powered_Sequential_init, Sequential.
      cbn [app Sequential_layers]. rewrite Hinput.
      rewrite <- !app_assoc. cbn [app].
      apply distinct_NoDup in Hnames. rewrite Hnames.
      cbn [bind_result Sequential_layers]. now rewrite Hinput. }
    rewrite Hself. cbn [seq_layers seq_name].
    assert (Hhead0 : py_index [fc6; fc7; out] 0 = Ok fc6) by reflexivity.
    assert (Hhead1 : py_index [fc6; fc7; out] 1 = Ok fc7) by reflexivity.
    rewrite Hhead0, Hfc6, Hhead1, Hfc7. cbn [unpack_pair fst snd].
    assert (Hset6 : forall f,
               py_update (feats ++ [pool'; c6; c7]) (-2) f
               = Ok (feats ++ [pool'; f c6; c7])).
    { intros f.
      replace (feats ++ [pool'; c6; c7]) with ((feats ++ [pool']) ++ c6 :: [c7])
        by (now rewrite <- app_assoc).
      change (-2) with (- (len [c7] + 1)).
      rewrite py_update_back. now rewrite <- app_assoc. }
    assert (Hset7 : forall f c,
               py_update (feats ++ [pool'; c; c7]) (-1) f
               = Ok (feats ++ [pool'; c; f c7])).
    { intros f c.
      replace (feats ++ [pool'; c; c7]) with ((feats ++ [pool'; c]) ++ [c7])
        by (now rewrite <- app_assoc).
      change (-1) with (- (len (@nil (Layer tensor)) + 1)).
      rewrite py_update_back. now rewrite <- app_assoc. }
    change (- (len (@nil (Layer tensor)) + 1)) with (-1).
    rewrite Hset6, Hset7.
    rewrite <- ?app_assoc. reflexivity.
  - unfold Powered_Sequential_len, model. cbn [seq_layers].
    rewrite Harch. unfold len. cbn [List.length]. rewrite !length_app.
    cbn [List.length]. lia.
Qed.

Lemma BaseNet_init_builds_witness :
  let conv6 :=
    Samples.set_weights [Samples.random_choice 10 [3; 3; 512; 1024];
                         Samples.random_choice 11 [1024]]
      (Samples.Conv2D 1024 3 6 "head_conv6") in
  let conv7 :=
    Samples.set_weights [Samples.random_choice 20 [1; 1; 1024; 1024];
                         Samples.random_choice 21 [1024]]
      (Samples.Conv2D 1024 1 1 "head_conv7") in
  let model :=
    mkSequential ([Samples.conv1; Samples.conv2]
                  ++ [Samples.MaxPool2D 3 1 (name Samples.pool); conv6; conv7])
      "BaseNet" in
  BaseNet_init Samples.VGG16 Samples.MaxPool2D Samples.Conv2D Samples.get_weights
    Samples.set_weights (fun w => w) Samples.random_choice
    "VGG_16" tt "BaseNet" []
  = (Ok model,
     [] ++ [LoadVGG16 false; LoadVGG16 true; NewLayer (name Samples.pool);
            NewLayer "head_conv6"; NewLayer "head_conv7"; InitSequential "BaseNet";
            SetWeights "head_conv6"; SetWeights "head_conv7"])
  /\ Powered_Sequential_len Z model
     = len (Samples.VGG16 false BASE_WEIGHTS (Some tt)) + 1.
Proof.
  apply (BaseNet_init_builds Samples.VGG16 Samples.MaxPool2D Samples.Conv2D
           Samples.get_weights Samples.set_weights (fun w => w) Samples.random_choice
           "VGG_16" tt "BaseNet" []
           [Samples.conv1; Samples.conv2] (Samples.input_1 :: Samples.net3)
           Samples.input_1 Samples.pool Samples.fc1 Samples.fc2 Samples.predictions
           10 11 20 21).
  - right. right. left. reflexivity.
  - reflexivity.
  - reflexivity.
  - reflexivity.
  - reflexivity.
  - reflexivity.
  - repeat constructor; cbn; intuition discriminate.
Defined.
